(** * Bond yield calculator: [src/components/BondCalculator.tsx]

    A shallow embedding of the component's state, of its two handlers
    ([calculateCompoundRate], [handleInputChange]) and of the values its
    render function derives from the held result.

    JavaScript numbers are IEEE 754 binary64 values; they are modelled by
    the Standard Library's [spec_float] at precision 53 and maximal
    exponent 1024, with its round-to-nearest-even operations.  The two
    global functions the component calls on its text fields, [parseFloat]
    and [parseInt], follow ECMAScript (ECMA-262, sections 19.2.4 and
    19.2.5), with the decimal value rounded to the nearest number.
    [Math.pow] is only specified up to an implementation-chosen
    approximation, and is a parameter of the development. *)

From Stdlib Require Import ZArith Bool List Ascii String Lia.
From Stdlib Require Import Floats.SpecFloat.
Import ListNotations.

Local Open Scope string_scope.
Local Open Scope Z_scope.

(** ** Numbers *)

Module Number.

Definition prec : Z := 53.
Definition emax : Z := 1024.

Definition number : Type := spec_float.

Definition NaN : number := S754_nan.

Definition isNaN (x : number) : bool :=
  match x with
  | S754_nan => true
  | _ => false
  end.

Definition isFinite (x : number) : bool :=
  match x with
  | S754_zero _ | S754_finite _ _ _ => true
  | _ => false
  end.

Definition isZero (x : number) : bool :=
  match x with
  | S754_zero _ => true
  | _ => false
  end.

(** The sign bit of a number that is not NaN. *)
Definition signBit (x : number) : bool :=
  match x with
  | S754_zero s | S754_infinity s | S754_finite s _ _ => s
  | S754_nan => false
  end.

Definition add : number -> number -> number := SFadd prec emax.
Definition sub : number -> number -> number := SFsub prec emax.
Definition mul : number -> number -> number := SFmul prec emax.
Definition div : number -> number -> number := SFdiv prec emax.

(** [x <= y], [x < y] and [x > y]: all false when an operand is NaN. *)
Definition leb : number -> number -> bool := SFleb.
Definition ltb : number -> number -> bool := SFltb.
Definition gtb (x y : number) : bool := SFltb y x.

(** The number nearest to the integer [z] (ties to even); the sign of a
    zero result is given apart. *)
Definition ofZ (negzero : bool) (z : Z) : number :=
  binary_normalize prec emax z 0 negzero.

Definition zero : number := S754_zero false.
Definition one : number := Eval cbv in ofZ false 1.
Definition hundred : number := Eval cbv in ofZ false 100.

(** The number nearest to the ratio [p / q]. *)
Definition ofRatio (neg : bool) (p q : positive) : number :=
  let '(mz, ez, lz) := SFdiv_core_binary prec emax (Zpos p) 0 (Zpos q) 0 in
  binary_round_aux prec emax neg mz ez lz.

(** The number nearest to [(-1)^neg * m * 10^e], for a natural [m];
    a zero keeps the sign. *)
Definition ofDecimal (neg : bool) (m e : Z) : number :=
  match m with
  | Zpos p =>
      match e with
      | Zneg k => ofRatio neg p (Pos.pow 10 k)
      | _ => ofZ neg (cond_Zopp neg (m * 10 ^ e))
      end
  | _ => S754_zero neg
  end.

(** A number that is not NaN and carries the sign [s]. *)
Definition signedAs (s : bool) (x : number) : Prop :=
  isNaN x = false /\ signBit x = s.

End Number.
Import Number.

(** ** Text

    A string is a sequence of code units; the embedding keeps the code
    units below 256, which cover every character the two parsers treat
    specially except the white space beyond U+00A0. *)

Module Text.

(** StrWhiteSpaceChar, restricted to code units below 256: TAB, LF, VT,
    FF, CR, SP and NBSP. *)
Definition isStrWhiteSpaceChar (c : ascii) : bool :=
  let n := N_of_ascii c in
  (N.eqb n 9 || N.eqb n 10 || N.eqb n 11 || N.eqb n 12 || N.eqb n 13
   || N.eqb n 32 || N.eqb n 160)%bool.

(** TrimString(_, start) *)
Fixpoint trimStart (s : string) : string :=
  match s with
  | String c s' => if isStrWhiteSpaceChar c then trimStart s' else s
  | EmptyString => s
  end.

(** The value of [c] as a digit in the given radix (10 or 16). *)
Definition digitValue (radix : Z) (c : ascii) : option Z :=
  let n := Z.of_N (N_of_ascii c) in
  if (48 <=? n) && (n <=? 57) then Some (n - 48)
  else if Z.eqb radix 16 then
    if (97 <=? n) && (n <=? 102) then Some (n - 87)
    else if (65 <=? n) && (n <=? 70) then Some (n - 55)
    else None
  else None.

(** The longest run of radix-[radix] digits at the start of [s], as
    digit values, and the text after it. *)
Fixpoint spanDigits (radix : Z) (s : string) : list Z * string :=
  match s with
  | String c s' =>
      match digitValue radix c with
      | Some d => let '(ds, rest) := spanDigits radix s' in (d :: ds, rest)
      | None => ([], s)
      end
  | EmptyString => ([], s)
  end.

(** The mathematical value of a digit sequence, most significant first. *)
Definition mathValue (radix : Z) (ds : list Z) : Z :=
  fold_left (fun acc d => acc * radix + d) ds 0.

(** An optional sign: whether it is a minus, and the text after it. *)
Definition stripSign (s : string) : bool * string :=
  match s with
  | String c s' =>
      if Ascii.eqb c "-" then (true, s')
      else if Ascii.eqb c "+" then (false, s')
      else (false, s)
  | EmptyString => (false, s)
  end.

(** The text after a leading [0x] or [0X], when there is one. *)
Definition hexPrefix (s : string) : option string :=
  match s with
  | String c0 (String c1 s') =>
      if (Ascii.eqb c0 "0" && (Ascii.eqb c1 "x" || Ascii.eqb c1 "X"))%bool
      then Some s'
      else None
  | _ => None
  end.

(** *** [parseInt(string)], called without a radix *)
Definition parseInt (inputString : string) : number :=
  let trimmed := trimStart inputString in
  let '(sign, unsigned) := stripSign trimmed in
  let '(radix, body) :=
    match hexPrefix unsigned with
    | Some s' => (16, s')
    | None => (10, unsigned)
    end in
  match spanDigits radix body with
  | ([], _) => NaN
  | (ds, _) => ofZ sign (cond_Zopp sign (mathValue radix ds))
  end.

(** ExponentPart_opt: the exponent a text starts with, 0 when it does
    not start with a complete exponent part. *)
Definition exponentPart (s : string) : Z :=
  match s with
  | String c s' =>
      if (Ascii.eqb c "e" || Ascii.eqb c "E")%bool then
        let '(esign, s'') := stripSign s' in
        match spanDigits 10 s'' with
        | ([], _) => 0
        | (ds, _) => cond_Zopp esign (mathValue 10 ds)
        end
      else 0
  | EmptyString => 0
  end.

(** The digits after a decimal point, when the text starts with one. *)
Definition fractionPart (s : string) : list Z * string :=
  match s with
  | String c s' => if Ascii.eqb c "." then spanDigits 10 s' else ([], s)
  | EmptyString => ([], s)
  end.

(** *** [parseFloat(string)]: the value of the longest prefix of the
    trimmed text that is a StrDecimalLiteral, NaN when there is none. *)
Definition parseFloat (inputString : string) : number :=
  let trimmed := trimStart inputString in
  let '(sign, body) := stripSign trimmed in
  if String.prefix "Infinity" body then S754_infinity sign
  else
    let '(intDigits, afterInt) := spanDigits 10 body in
    let '(fracDigits, afterFrac) := fractionPart afterInt in
    match (intDigits ++ fracDigits)%list with
    | [] => NaN
    | ds =>
        ofDecimal sign (mathValue 10 ds)
          (exponentPart afterFrac - Z.of_nat (List.length fracDigits))
    end.

(** *** Shapes of text *)

Definition isDecimalDigit (c : ascii) : bool :=
  match digitValue 10 c with
  | Some _ => true
  | None => false
  end.

Definition startsWithDigit (s : string) : bool :=
  match s with
  | String c _ => isDecimalDigit c
  | EmptyString => false
  end.

Fixpoint allDigits (s : string) : bool :=
  match s with
  | String c s' => isDecimalDigit c && allDigits s'
  | EmptyString => true
  end.

(** The value of the decimal digits a text starts with. *)
Definition digitsValue (s : string) : Z :=
  mathValue 10 (fst (spanDigits 10 s)).

(** After white space and an optional sign, the text goes on with a
    decimal digit. *)
Definition beginsInteger (s : string) : bool :=
  startsWithDigit (snd (stripSign (trimStart s))).

(** After white space and an optional sign, the text goes on with a
    decimal digit, with a point and a digit, or with the word Infinity. *)
Definition beginsDecimalLiteral (s : string) : bool :=
  let body := snd (stripSign (trimStart s)) in
  (startsWithDigit body
   || String.prefix "Infinity" body
   || match body with
      | String c s' => Ascii.eqb c "." && startsWithDigit s'
      | EmptyString => false
      end)%bool.

(** Characters a decimal literal is written with. *)
Definition isNumericChar (c : ascii) : bool :=
  (isDecimalDigit c || Ascii.eqb c "+" || Ascii.eqb c "-" || Ascii.eqb c "."
   || Ascii.eqb c "e" || Ascii.eqb c "E")%bool.

Fixpoint containsNonNumeric (s : string) : bool :=
  match s with
  | String c s' => negb (isNumericChar c) || containsNonNumeric s'
  | EmptyString => false
  end.

End Text.
Import Text.

(** ** The component *)

(** [interface BondData]: the four fields hold the raw text of the inputs. *)
Record BondData : Type := {
  nominalValue : string;
  currentValue : string;
  expirationYear : string;
  yearlyInterestRate : string
}.

(** [interface CalculationResult] *)
Record CalculationResult : Type := {
  compoundRate : number;
  totalInterestPayments : number;
  totalReturn : number;
  yearsRemaining : number
}.

(** [keyof BondData] *)
Inductive BondField : Type :=
  | NominalValue
  | CurrentValue
  | ExpirationYear
  | YearlyInterestRate.

Definition BondField_eqb (f g : BondField) : bool :=
  match f, g with
  | NominalValue, NominalValue
  | CurrentValue, CurrentValue
  | ExpirationYear, ExpirationYear
  | YearlyInterestRate, YearlyInterestRate => true
  | _, _ => false
  end.

(** [bondData[field]] *)
Definition getField (b : BondData) (field : BondField) : string :=
  match field with
  | NominalValue => nominalValue b
  | CurrentValue => currentValue b
  | ExpirationYear => expirationYear b
  | YearlyInterestRate => yearlyInterestRate b
  end.

(** [{ ...prev, [field]: value }] *)
Definition spreadWith (prev : BondData) (field : BondField) (value : string)
  : BondData :=
  match field with
  | NominalValue =>
      {| nominalValue := value;
         currentValue := currentValue prev;
         expirationYear := expirationYear prev;
         yearlyInterestRate := yearlyInterestRate prev |}
  | CurrentValue =>
      {| nominalValue := nominalValue prev;
         currentValue := value;
         expirationYear := expirationYear prev;
         yearlyInterestRate := yearlyInterestRate prev |}
  | ExpirationYear =>
      {| nominalValue := nominalValue prev;
         currentValue := currentValue prev;
         expirationYear := value;
         yearlyInterestRate := yearlyInterestRate prev |}
  | YearlyInterestRate =>
      {| nominalValue := nominalValue prev;
         currentValue := currentValue prev;
         expirationYear := expirationYear prev;
         yearlyInterestRate := value |}
  end.

(** The two [useState] cells of the component. *)
Record Component : Type := {
  bondData : BondData;
  result : option CalculationResult
}.

Definition setBondData (update : BondData -> BondData) (st : Component)
  : Component :=
  {| bondData := update (bondData st); result := result st |}.

Definition setResult (r : option CalculationResult) (st : Component)
  : Component :=
  {| bondData := bondData st; result := r |}.

(** The state of a freshly mounted component, before its effect runs. *)
Definition initialComponent : Component :=
  {| bondData :=
       {| nominalValue := EmptyString;
          currentValue := EmptyString;
          expirationYear := EmptyString;
          yearlyInterestRate := EmptyString |};
     result := None |}.

Definition handleInputChange (field : BondField) (value : string)
  (st : Component) : Component :=
  setBondData (fun prev => spreadWith prev field value) st.

(** [new Date().getFullYear()] answers a year the [Date] type can hold. *)
Definition calendarYear (year : Z) : Prop := -271821 <= year <= 275760.

Section Calculator.

(** [Math.pow] *)
Variable Math_pow : number -> number -> number.

(** The year [new Date().getFullYear()] reads from the clock. *)
Variable getFullYear : Z.

Definition calculateCompoundRate (st : Component) : Component :=
  let nominal := parseFloat (nominalValue (bondData st)) in
  let current := parseFloat (currentValue (bondData st)) in
  let expYear := parseInt (expirationYear (bondData st)) in
  let interestRate :=
    div (parseFloat (yearlyInterestRate (bondData st))) hundred in
  if (isNaN nominal || isNaN current || isNaN expYear
      || isNaN interestRate)%bool
  then setResult None st
  else
    let currentYear := ofZ false getFullYear in
    let yearsRemaining := sub expYear currentYear in
    if leb yearsRemaining zero then setResult None st
    else
      let annualInterest := mul nominal interestRate in
      let totalInterestPayments := mul annualInterest yearsRemaining in
      let totalReturn := add totalInterestPayments nominal in
      let compoundRate :=
        Math_pow (div totalReturn current) (div one yearsRemaining) in
      setResult
        (Some {| compoundRate := compoundRate;
                 totalInterestPayments := totalInterestPayments;
                 totalReturn := totalReturn;
                 yearsRemaining := yearsRemaining |})
        st.

(** An input event: the handler stores the text, and the effect that
    depends on [bondData] then runs the calculation again. *)
Definition inputEvent (field : BondField) (value : string)
  (st : Component) : Component :=
  calculateCompoundRate (handleInputChange field value st).

End Calculator.

(** *** Values the render function derives from the held result *)

(** [(result.compoundRate - 1) * 100], before [toFixed(2)] *)
Definition displayedYield (r : CalculationResult) : number :=
  mul (sub (compoundRate r) one) hundred.

(** [result.totalInterestPayments / result.yearsRemaining], the per-year
    interest of the formula breakdown (printed as it is in the first line
    and through [toFixed(2)] in the second). *)
Definition displayedAnnualInterest (r : CalculationResult) : number :=
  div (totalInterestPayments r) (yearsRemaining r).

(** [result.totalReturn - parseFloat(bondData.currentValue)], before
    [toFixed(2)] *)
Definition displayedProfit (b : BondData) (r : CalculationResult) : number :=
  sub (totalReturn r) (parseFloat (currentValue b)).

(** *** The values of the calculation, as functions of the fields *)

Definition nominalOf (b : BondData) : number := parseFloat (nominalValue b).
Definition currentOf (b : BondData) : number := parseFloat (currentValue b).
Definition expYearOf (b : BondData) : number := parseInt (expirationYear b).
Definition ratePercentOf (b : BondData) : number :=
  parseFloat (yearlyInterestRate b).
Definition yearsRemainingOf (year : Z) (b : BondData) : number :=
  sub (expYearOf b) (ofZ false year).
Definition annualInterestOf (b : BondData) : number :=
  mul (nominalOf b) (div (ratePercentOf b) hundred).

(** None of the four fields parses to NaN. *)
Definition allParsed (b : BondData) : Prop :=
  isNaN (nominalOf b) = false /\ isNaN (currentOf b) = false
  /\ isNaN (expYearOf b) = false /\ isNaN (ratePercentOf b) = false.

(** The four fields parse to finite numbers. *)
Definition allFinite (b : BondData) : Prop :=
  isFinite (nominalOf b) = true /\ isFinite (currentOf b) = true
  /\ isFinite (expYearOf b) = true /\ isFinite (ratePercentOf b) = true.

(** A field's text begins the kind of literal its parser reads: an
    integer for the expiration year, a decimal literal for the others. *)
Definition beginsNumber (field : BondField) (s : string) : bool :=
  match field with
  | ExpirationYear => beginsInteger s
  | _ => beginsDecimalLiteral s
  end.

(** An instance of [Math.pow] for running the calculator on concrete
    inputs.  It answers what ECMAScript fixes when the exponent is NaN, a
    zero or one, and NaN elsewhere. *)
Definition powSample (base exponent : number) : number :=
  match exponent with
  | S754_nan => NaN
  | S754_zero _ => one
  | _ => if SFeqb exponent one then base else NaN
  end.

Definition bond (n c e r : string) : BondData :=
  {| nominalValue := n; currentValue := c;
     expirationYear := e; yearlyInterestRate := r |}.

Definition holding (b : BondData) : Component :=
  {| bondData := b; result := None |}.

(** *** Four sentences of the specification, as they are written *)

(** The result exists if and only if all four input fields parse to
    finite numbers and [yearsRemaining > 0]. *)
Definition resultIffFiniteInputs : Prop :=
  forall (Math_pow : number -> number -> number) (year : Z) (st : Component),
    calendarYear year ->
    ((exists r, result (calculateCompoundRate Math_pow year st) = Some r)
     <-> allFinite (bondData st)
         /\ gtb (yearsRemainingOf year (bondData st)) zero = true).

(** For any field left empty or containing non-numeric text, the result
    is absent. *)
Definition absentOnNonNumericText : Prop :=
  forall (Math_pow : number -> number -> number) (year : Z) (st : Component)
         (field : BondField),
    getField (bondData st) field = EmptyString
    \/ containsNonNumeric (getField (bondData st) field) = true ->
    result (calculateCompoundRate Math_pow year st) = None.

(** The per-year interest on display is numerically identical to the
    annual interest it re-derives. *)
Definition displayedInterestIsAnnualInterest : Prop :=
  forall (Math_pow : number -> number -> number) (year : Z) (st : Component)
         (r : CalculationResult),
    result (calculateCompoundRate Math_pow year st) = Some r ->
    displayedAnnualInterest r = annualInterestOf (bondData st).

(** An expiration year that begins with an integer and goes on with
    other characters is read as that integer. *)
Definition yearPrefixTruncated : Prop :=
  forall pre rest : string,
    pre <> EmptyString -> allDigits pre = true ->
    rest <> EmptyString -> startsWithDigit rest = false ->
    parseInt (pre ++ rest) = ofZ false (digitsValue pre).

(** *** Runs of input events *)

Section Runs.

Variable Math_pow : number -> number -> number.
Variable getFullYear : Z.

(** Input events handled one after the other, oldest first, within one
    calendar year: each one ends with the effect's calculation. *)
Definition runEvents (events : list (BondField * string)) (st : Component)
  : Component :=
  fold_left
    (fun s ev => inputEvent Math_pow getFullYear (fst ev) (snd ev) s)
    events st.

End Runs.

(** The text the last event on [field] carries, [held] when there is
    none. *)
Fixpoint lastText (field : BondField) (events : list (BondField * string))
  (held : string) : string :=
  match events with
  | [] => held
  | ev :: later =>
      lastText field later
        (if BondField_eqb (fst ev) field then snd ev else held)
  end.

(** *** More shapes of text *)

Fixpoint allWhiteSpace (s : string) : bool :=
  match s with
  | String c s' => isStrWhiteSpaceChar c && allWhiteSpace s'
  | EmptyString => true
  end.

(** Nothing, or a point and decimal digits. *)
Definition isFractionTail (s : string) : bool :=
  match s with
  | String c s' => Ascii.eqb c "." && allDigits s'
  | EmptyString => true
  end.

(** A text that cannot go on a decimal literal: it is empty or starts
    with a character other than a digit, a point and an exponent mark. *)
Definition endsLiteral (s : string) : bool :=
  match s with
  | String c _ =>
      negb (isDecimalDigit c || Ascii.eqb c "." || Ascii.eqb c "e"
            || Ascii.eqb c "E")
  | EmptyString => true
  end.

(** A text that begins with the decimal year [pre], of at most 15 digits
    and not marked as hexadecimal, and goes on with [rest], which does not
    start with a digit. *)
Definition yearText (pre rest : string) : Prop :=
  pre <> EmptyString /\ allDigits pre = true
  /\ startsWithDigit rest = false /\ hexPrefix (pre ++ rest) = None
  /\ (String.length pre <= 15)%nat.

(** The four texts after a run of input events. *)
Definition lastTexts (events : list (BondField * string)) (b : BondData)
  : BondData :=
  {| nominalValue := lastText NominalValue events (nominalValue b);
     currentValue := lastText CurrentValue events (currentValue b);
     expirationYear := lastText ExpirationYear events (expirationYear b);
     yearlyInterestRate :=
       lastText YearlyInterestRate events (yearlyInterestRate b) |}.

(** *** [Number.prototype.toFixed]

    The render function prints its amounts through [toFixed(2)] and the
    compound rate through [toFixed(4)].  The built-in refuses more than
    100 digits with a RangeError; the embedding has no such path and is
    used with 2 and 4 digits only. *)

(** The character of a decimal digit. *)
Definition digitChar (d : Z) : ascii := ascii_of_N (Z.to_N (48 + d)).

(** The decimal digits of a natural number, most significant first. *)
Fixpoint decimalDigits (fuel : nat) (n : Z) : string :=
  match fuel with
  | O => EmptyString
  | S fuel' =>
      if n <? 10 then String (digitChar n) EmptyString
      else decimalDigits fuel' (n / 10)
           ++ String (digitChar (n mod 10)) EmptyString
  end.

Definition decimalString (n : Z) : string :=
  decimalDigits (S (Z.to_nat (Z.log2 n))) n.

Fixpoint zeros (n : nat) : string :=
  match n with
  | O => EmptyString
  | S n' => String "0" (zeros n')
  end.

Fixpoint splitAt (n : nat) (s : string) : string * string :=
  match n, s with
  | S n', String c s' => let '(a, b) := splitAt n' s' in (String c a, b)
  | _, _ => (EmptyString, s)
  end.

(** The integer nearest to [m * 2^e * 10^f], the larger one of two. *)
Definition scaledHalfUp (f : nat) (m : positive) (e : Z) : Z :=
  let s := Zpos m * 10 ^ Z.of_nat f in
  match e with
  | Zneg k => (2 * s + 2 ^ Zpos k) / (2 * 2 ^ Zpos k)
  | _ => s * 2 ^ e
  end.

(** [m * 2^e >= 10^21] *)
Definition atLeastTenPow21 (m : positive) (e : Z) : bool :=
  match e with
  | Zneg k => 10 ^ 21 * 2 ^ Zpos k <=? Zpos m
  | _ => 10 ^ 21 <=? Zpos m * 2 ^ e
  end.

(** The text of [n / 10^f] with [f] digits after the point. *)
Definition fixedText (f : nat) (n : Z) : string :=
  let digits := decimalString n in
  match f with
  | O => digits
  | _ =>
      let k := String.length digits in
      let padded :=
        if (k <=? f)%nat then zeros (f + 1 - k) ++ digits else digits in
      let '(a, b) := splitAt (String.length padded - f) padded in
      a ++ String "." b
  end.

Section Formatting.

(** [Number::toString], which [toFixed] falls back on from 10^21 on. *)
Variable Number_toString : number -> string.

Definition toFixed (fractionDigits : nat) (x : number) : string :=
  match x with
  | S754_nan => "NaN"
  | S754_infinity false => "Infinity"
  | S754_infinity true => "-Infinity"
  | S754_zero _ => fixedText fractionDigits 0
  | S754_finite s m e =>
      (if s then "-" else EmptyString)
      ++ (if atLeastTenPow21 m e
          then Number_toString (S754_finite false m e)
          else fixedText fractionDigits (scaledHalfUp fractionDigits m e))
  end.

End Formatting.

(** An instance of [Number::toString] for running [toFixed] on concrete
    inputs; it is only called from 10^21 on. *)
Definition toStringSample (x : number) : string := "1e+21".

(** *** The amounts as the render function prints them *)

Section Texts.

Variable Number_toString : number -> string.

(** [((result.compoundRate - 1) * 100).toFixed(2)] *)
Definition yieldText (r : CalculationResult) : string :=
  toFixed Number_toString 2 (displayedYield r).

(** [result.totalInterestPayments.toFixed(2)] *)
Definition totalInterestText (r : CalculationResult) : string :=
  toFixed Number_toString 2 (totalInterestPayments r).

(** [result.totalReturn.toFixed(2)] *)
Definition totalReturnText (r : CalculationResult) : string :=
  toFixed Number_toString 2 (totalReturn r).

(** [(result.totalReturn - parseFloat(bondData.currentValue)).toFixed(2)] *)
Definition profitText (b : BondData) (r : CalculationResult) : string :=
  toFixed Number_toString 2 (displayedProfit b r).

(** [(result.totalInterestPayments / result.yearsRemaining).toFixed(2)] *)
Definition annualInterestText (r : CalculationResult) : string :=
  toFixed Number_toString 2 (displayedAnnualInterest r).

(** [result.compoundRate.toFixed(4)] *)
Definition compoundRateText (r : CalculationResult) : string :=
  toFixed Number_toString 4 (compoundRate r).

End Texts.

(** *** What ECMAScript fixes of [Math.pow]

    Two consequences of Number::exponentiate that hold whatever the
    approximation an engine chooses elsewhere: an exponent of zero gives
    1, and a base that is NaN or an infinity, raised to an exponent
    greater than zero, gives NaN or an infinity. *)
Definition exponentiateFixedCases (pow : number -> number -> number) : Prop :=
  (forall base exponent, isZero exponent = true -> pow base exponent = one)
  /\ (forall base exponent,
        isFinite base = false -> gtb exponent zero = true ->
        isFinite (pow base exponent) = false).


(** The sign a numeric text may carry before its digits. *)
Inductive SignMark : Type :=
  | NoSign
  | PlusSign
  | MinusSign.

Definition signText (mark : SignMark) : string :=
  match mark with
  | NoSign => EmptyString
  | PlusSign => "+"
  | MinusSign => "-"
  end.

Definition isMinus (mark : SignMark) : bool :=
  match mark with
  | MinusSign => true
  | _ => false
  end.

(** *** What [toFixed] prints of a number *)

(** Finite and below 10^21 in absolute value. *)
Definition belowTenPow21 (x : number) : bool :=
  match x with
  | S754_zero _ => true
  | S754_finite _ m e => negb (atLeastTenPow21 m e)
  | _ => false
  end.

(** [toFixed] prints a minus sign for the finite numbers below zero, and
    for no zero. *)
Definition printsMinus (x : number) : bool :=
  match x with
  | S754_finite s _ _ => s
  | _ => false
  end.

(** [n] is the integer nearest to the absolute value of [x] times
    [10^f], the larger one when two are as near: with that product
    written as the fraction [p / q], [n - 1/2 <= p / q < n + 1/2]. *)
Definition nearestScaled (f : nat) (x : number) (n : Z) : Prop :=
  match x with
  | S754_finite _ m e =>
      let p := Zpos m * 10 ^ Z.of_nat f * 2 ^ Z.max 0 e in
      let q := 2 ^ Z.max 0 (- e) in
      2 * q * n - q <= 2 * p < 2 * q * n + q
  | _ => n = 0
  end.

(** [text] prints [x] with [f] digits after the point: an optional minus
    sign, at least one digit, a point and [f] digits; the digits read
    together are the nearest integer to the scaled absolute value, and
    [parseFloat] reads the text back as that decimal, negative exactly
    when the minus sign is printed. *)
Definition printsFixed (f : nat) (x : number) (text : string) : Prop :=
  exists a b,
    text = (if printsMinus x then "-" else EmptyString) ++ a ++ String "." b
    /\ a <> EmptyString /\ allDigits a = true
    /\ allDigits b = true /\ String.length b = f
    /\ nearestScaled f x (digitsValue (a ++ b))
    /\ parseFloat text
       = ofDecimal (printsMinus x) (digitsValue (a ++ b)) (- Z.of_nat f).

(** ** Facts about numbers *)

Section Rounding.

Lemma iter_pos_invariant {A : Type} (P : A -> Prop) (f : A -> A) :
  (forall x, P x -> P (f x)) ->
  forall p x, P x -> P (iter_pos f p x).
Proof.
  intros Hf p; induction p as [p IH | p IH | ]; simpl; intros x Hx; auto.
Qed.

Lemma shr_1_nonneg (mrs : shr_record) :
  0 <= shr_m mrs -> 0 <= shr_m (shr_1 mrs).
Proof.
  destruct mrs as [m r s]; simpl.
  destruct m as [ | [p | p | ] | [p | p | ]]; simpl; lia.
Qed.

Lemma shr_nonneg (mrs : shr_record) (e n : Z) :
  0 <= shr_m mrs -> 0 <= shr_m (fst (shr mrs e n)).
Proof.
  intros H; destruct n as [ | p | p]; simpl; auto.
  apply (iter_pos_invariant (fun x => 0 <= shr_m x)); auto using shr_1_nonneg.
Qed.

Lemma shr_fexp_nonneg (m e : Z) (l : location) :
  0 <= m -> 0 <= shr_m (fst (shr_fexp prec emax m e l)).
Proof.
  intros H; unfold shr_fexp; apply shr_nonneg.
  destruct l as [ | [ | | ]]; simpl; exact H.
Qed.

Lemma round_nearest_even_nonneg (m : Z) (l : location) :
  0 <= m -> 0 <= round_nearest_even m l.
Proof.
  intros H; unfold round_nearest_even.
  destruct l as [ | [ | | ]]; try destruct (Z.even m); lia.
Qed.

Lemma binary_round_aux_signedAs (sx : bool) (mx ex : Z) (lx : location) :
  0 <= mx -> signedAs sx (binary_round_aux prec emax sx mx ex lx).
Proof.
  intros H; unfold binary_round_aux.
  pose proof (shr_fexp_nonneg mx ex lx H) as H1.
  destruct (shr_fexp prec emax mx ex lx) as [mrs' e']; simpl in H1.
  pose proof (round_nearest_even_nonneg _ (loc_of_shr_record mrs') H1) as H2.
  pose proof (shr_fexp_nonneg _ e' loc_Exact H2) as H3.
  destruct (shr_fexp prec emax _ e' loc_Exact) as [mrs'' e'']; simpl in H3.
  destruct (shr_m mrs'') as [ | m | m]; [ | | lia]; try (split; reflexivity).
  destruct (e'' <=? emax - prec); split; reflexivity.
Qed.

Lemma binary_round_signedAs (sx : bool) (mx : positive) (ex : Z) :
  signedAs sx (binary_round prec emax sx mx ex).
Proof.
  unfold binary_round.
  destruct (shl_align mx ex _) as [mz ez].
  apply binary_round_aux_signedAs; lia.
Qed.

Lemma ofZ_not_NaN (negzero : bool) (z : Z) : isNaN (ofZ negzero z) = false.
Proof.
  unfold ofZ, binary_normalize; destruct z as [ | p | p]; auto;
    apply binary_round_signedAs.
Qed.

Lemma ofZ_signedAs (neg : bool) (z : Z) :
  0 <= z -> signedAs neg (ofZ neg (cond_Zopp neg z)).
Proof.
  intros H; unfold ofZ, binary_normalize.
  destruct z as [ | p | p]; [ | | lia].
  - destruct neg; split; reflexivity.
  - destruct neg; simpl; apply binary_round_signedAs.
Qed.

Lemma SFdiv_core_nonneg (m1 m2 : positive) (e1 e2 : Z) :
  0 <= fst (fst (SFdiv_core_binary prec emax (Zpos m1) e1 (Zpos m2) e2)).
Proof.
  unfold SFdiv_core_binary.
  set (e' := Z.min _ _); set (m' := match _ with 0 => _ | _ => _ end).
  assert (Hm : 0 <= m').
  { subst m'; destruct (e1 - e2 - e') as [ | k | k]; try lia.
    apply Z.shiftl_nonneg; lia. }
  pose proof (Z_div_mod m' (Zpos m2) eq_refl) as Hq.
  destruct (Z.div_eucl m' (Z.pos m2)) as [qz rz]; simpl.
  destruct Hq as [Hq Hr]; nia.
Qed.

Lemma ofRatio_signedAs (neg : bool) (p q : positive) :
  signedAs neg (ofRatio neg p q).
Proof.
  unfold ofRatio.
  pose proof (SFdiv_core_nonneg p q 0 0) as H.
  destruct (SFdiv_core_binary prec emax (Zpos p) 0 (Zpos q) 0)
    as [[mz ez] lz]; simpl in H.
  apply binary_round_aux_signedAs; exact H.
Qed.

Lemma ofDecimal_signedAs (neg : bool) (m e : Z) :
  0 <= m -> signedAs neg (ofDecimal neg m e).
Proof.
  intros H; unfold ofDecimal.
  destruct m as [ | p | p]; [split; reflexivity | | lia].
  destruct e as [ | k | k]; try apply ofRatio_signedAs;
    apply ofZ_signedAs; lia.
Qed.

End Rounding.

Section Exactness.

Lemma digits2_pos_lower (p : positive) :
  2 ^ (Zpos (digits2_pos p) - 1) <= Zpos p.
Proof.
  induction p as [p IH | p IH | ]; simpl digits2_pos;
    try (rewrite Pos2Z.inj_succ;
         replace (Z.succ (Zpos (digits2_pos p)) - 1)
           with (Z.succ (Zpos (digits2_pos p) - 1)) by lia;
         rewrite Z.pow_succ_r by lia; lia).
  simpl; lia.
Qed.

Lemma digits2_pos_iter_xO (m k : positive) :
  digits2_pos (Pos.iter xO m k) = (digits2_pos m + k)%positive.
Proof.
  induction k as [ | k IH] using Pos.peano_ind.
  - simpl; lia.
  - rewrite Pos.iter_succ; simpl; rewrite IH; lia.
Qed.

Lemma iter_xO_value (m k : positive) :
  Zpos (Pos.iter xO m k) = Zpos m * 2 ^ Zpos k.
Proof.
  induction k as [ | k IH] using Pos.peano_ind.
  - simpl; lia.
  - rewrite Pos.iter_succ, Pos2Z.inj_xO, IH, Pos2Z.inj_succ.
    rewrite Z.pow_succ_r by lia; ring.
Qed.

(** An integer of at most 53 bits is a number, exactly. *)
Lemma binary_round_small (sx : bool) (mx : positive) :
  Zpos (digits2_pos mx) <= prec ->
  exists mz ez,
    binary_round prec emax sx mx 0 = S754_finite sx mz ez
    /\ ez <= 0 /\ Zpos mz = Zpos mx * 2 ^ (- ez).
Proof.
  intros Hd; unfold binary_round.
  set (d := Zpos (digits2_pos mx)) in *.
  assert (Hfexp : fexp prec emax (d + 0) = d - prec).
  { unfold fexp, emin, prec, emax in *; lia. }
  rewrite Hfexp.
  assert (Hshift : exists mz,
             shl_align mx 0 (d - prec) = (mz, d - prec)
             /\ Zpos (digits2_pos mz) = prec
             /\ Zpos mz = Zpos mx * 2 ^ (- (d - prec))).
  { unfold shl_align. destruct (d - prec - 0) as [ | k | k] eqn:Hk; try lia.
    - exists mx; replace (d - prec) with 0 by lia.
      repeat split; [fold d; lia | simpl; lia].
    - exists (Pos.iter xO mx k); repeat split.
      + rewrite digits2_pos_iter_xO, Pos2Z.inj_add; fold d; lia.
      + rewrite iter_xO_value; f_equal; f_equal; lia. }
  destruct Hshift as (mz & -> & Hdz & Hval).
  exists mz, (d - prec); repeat split; try assumption; try lia.
  unfold binary_round_aux, shr_fexp.
  assert (H0 : fexp prec emax (Zdigits2 (Zpos mz) + (d - prec)) - (d - prec)
               = 0).
  { simpl Zdigits2; rewrite Hdz; unfold fexp, emin, prec, emax in *; lia. }
  rewrite H0.
  cbn [shr shr_record_of_loc shr_m shr_r shr_s loc_of_shr_record
       round_nearest_even].
  rewrite H0.
  cbn [shr shr_record_of_loc shr_m].
  replace (d - prec <=? emax - prec) with true; [reflexivity | ].
  symmetry; apply Z.leb_le; unfold prec, emax in *; lia.
Qed.

Lemma small_digits (p : positive) :
  Zpos p < 2 ^ prec -> Zpos (digits2_pos p) <= prec.
Proof.
  intros Hp; pose proof (digits2_pos_lower p) as Hl.
  destruct (Z_le_gt_dec (Zpos (digits2_pos p)) prec) as [ | Hgt]; auto.
  exfalso.
  assert (2 ^ prec <= 2 ^ (Zpos (digits2_pos p) - 1))
    by (apply Z.pow_le_mono_r; unfold prec in *; lia).
  lia.
Qed.

Lemma ofZ_small (z : Z) :
  Z.abs z < 2 ^ prec -> isFinite (ofZ false z) = true.
Proof.
  intros Hz; unfold ofZ, binary_normalize.
  destruct z as [ | p | p]; auto; cbn [Z.abs] in Hz.
  - destruct (binary_round_small false p) as (mz & ez & -> & _);
      auto using small_digits.
  - destruct (binary_round_small true p) as (mz & ez & -> & _);
      auto using small_digits.
Qed.

Lemma calendarYear_finite (year : Z) :
  calendarYear year -> isFinite (ofZ false year) = true.
Proof.
  intros [Hlo Hhi]; apply ofZ_small.
  assert (2 ^ 19 <= 2 ^ prec) by (apply Z.pow_le_mono_r; unfold prec; lia).
  change (2 ^ 19) with 524288 in *; lia.
Qed.

End Exactness.

Section Arithmetic.

(** A product or a quotient that is not NaN has the exclusive or of the
    signs of its operands. *)
Lemma mul_sign (x y : number) :
  isNaN (mul x y) = false ->
  signBit (mul x y) = xorb (signBit x) (signBit y).
Proof.
  destruct x as [sx | sx | | sx mx ex], y as [sy | sy | | sy my ey];
    simpl; try discriminate; try reflexivity.
  intros _; apply binary_round_aux_signedAs; lia.
Qed.

Lemma div_sign (x y : number) :
  isNaN (div x y) = false ->
  signBit (div x y) = xorb (signBit x) (signBit y).
Proof.
  destruct x as [sx | sx | | sx mx ex], y as [sy | sy | | sy my ey];
    simpl; try discriminate; try reflexivity.
  intros _; unfold div, SFdiv.
  pose proof (SFdiv_core_nonneg mx my ex ey) as H.
  destruct (SFdiv_core_binary prec emax (Zpos mx) ex (Zpos my) ey)
    as [[mz ez] lz]; simpl in H.
  apply binary_round_aux_signedAs; exact H.
Qed.

(** Dividing by a finite number other than zero yields NaN only from
    NaN. *)
Lemma div_finite_NaN (x : number) (sy : bool) (my : positive) (ey : Z) :
  isNaN (div x (S754_finite sy my ey)) = isNaN x.
Proof.
  destruct x as [sx | sx | | sx mx ex]; try reflexivity.
  unfold div, SFdiv.
  pose proof (SFdiv_core_nonneg mx my ex ey) as H.
  destruct (SFdiv_core_binary prec emax (Zpos mx) ex (Zpos my) ey)
    as [[mz ez] lz]; simpl in H.
  apply binary_round_aux_signedAs; exact H.
Qed.

Lemma div_hundred_NaN (x : number) : isNaN (div x hundred) = isNaN x.
Proof. apply div_finite_NaN. Qed.


Lemma binary_normalize_not_NaN (m e : Z) (szero : bool) :
  isNaN (binary_normalize prec emax m e szero) = false.
Proof.
  destruct m as [ | p | p]; simpl; auto; apply binary_round_signedAs.
Qed.

(** Subtracting a finite number yields NaN only from NaN. *)
Lemma sub_finite_NaN (x y : number) :
  isFinite y = true -> isNaN (sub x y) = isNaN x.
Proof.
  destruct y as [sy | sy | | sy my ey]; try discriminate; intros _;
    destruct x as [sx | sx | | sx mx ex]; try reflexivity.
  - destruct sx, sy; reflexivity.
  - unfold sub, SFsub; apply binary_normalize_not_NaN.
Qed.

(** [x > 0] against [x <= 0]: they exclude each other, and one of them
    holds unless [x] is NaN. *)
Lemma gtb_zero_leb (x : number) :
  gtb x zero = true <-> isNaN x = false /\ leb x zero = false.
Proof.
  destruct x as [sx | sx | | sx mx ex]; try destruct sx; simpl;
    unfold gtb, leb, SFltb, SFleb; simpl; intuition congruence.
Qed.

End Arithmetic.

(** ** Facts about the two parsers *)

(** A fact about one code unit, settled on each of the 256. *)
Ltac each_code_unit c :=
  destruct c as [[] [] [] [] [] [] [] []]; vm_compute;
  repeat split; intros; congruence.

Section Parsing.

Lemma digit_not_space (c : ascii) :
  isDecimalDigit c = true -> isStrWhiteSpaceChar c = false.
Proof. each_code_unit c. Qed.

Lemma digit_not_sign (c : ascii) :
  isDecimalDigit c = true ->
  Ascii.eqb c "-" = false /\ Ascii.eqb c "+" = false.
Proof. each_code_unit c. Qed.

Lemma digit_not_hex_marker (c : ascii) :
  isDecimalDigit c = true ->
  Ascii.eqb c "x" = false /\ Ascii.eqb c "X" = false.
Proof. each_code_unit c. Qed.

Lemma not_digit_not_0 (c : ascii) :
  isDecimalDigit c = false -> Ascii.eqb c "0" = false.
Proof. each_code_unit c. Qed.

Lemma digitValue_nonneg (radix : Z) (c : ascii) (d : Z) :
  digitValue radix c = Some d -> 0 <= d.
Proof.
  unfold digitValue.
  repeat match goal with
         | |- context [if ?b then _ else _] => destruct b eqn:?
         end; intros [= <-]; lia.
Qed.

Lemma spanDigits_nonneg (radix : Z) (s : string) :
  Forall (fun d => 0 <= d) (fst (spanDigits radix s)).
Proof.
  induction s as [ | c s IH]; simpl; [constructor | ].
  destruct (digitValue radix c) as [d | ] eqn:Hd; [ | constructor].
  destruct (spanDigits radix s) as [ds rest]; simpl in *.
  constructor; eauto using digitValue_nonneg.
Qed.

Lemma fold_digits_nonneg (radix : Z) (ds : list Z) (acc : Z) :
  0 <= radix -> 0 <= acc -> Forall (fun d => 0 <= d) ds ->
  0 <= fold_left (fun acc d => acc * radix + d) ds acc.
Proof.
  intros Hr; revert acc; induction ds as [ | d ds IH]; simpl; intros acc Ha Hds.
  - exact Ha.
  - inversion Hds; subst; apply IH; [nia | assumption].
Qed.

Lemma mathValue_nonneg (radix : Z) (ds : list Z) :
  0 <= radix -> Forall (fun d => 0 <= d) ds -> 0 <= mathValue radix ds.
Proof. intros; apply fold_digits_nonneg; auto; lia. Qed.

Lemma spanDigits_no_digit (s : string) :
  startsWithDigit s = false -> spanDigits 10 s = ([], s).
Proof.
  destruct s as [ | c s]; simpl; [reflexivity | ].
  unfold isDecimalDigit; destruct (digitValue 10 c); congruence.
Qed.

Lemma spanDigits_digit (s : string) :
  startsWithDigit s = true -> fst (spanDigits 10 s) <> [].
Proof.
  destruct s as [ | c s]; simpl; [discriminate | ].
  unfold isDecimalDigit; destruct (digitValue 10 c); [ | discriminate].
  destruct (spanDigits 10 s); discriminate.
Qed.

Lemma spanDigits_app (pre rest : string) :
  allDigits pre = true -> startsWithDigit rest = false ->
  spanDigits 10 (pre ++ rest) = (fst (spanDigits 10 pre), rest).
Proof.
  intros Hpre Hrest; induction pre as [ | c pre IH]; simpl in *.
  - now rewrite spanDigits_no_digit.
  - apply andb_prop in Hpre as [Hc Hpre]; unfold isDecimalDigit in Hc.
    destruct (digitValue 10 c); [ | discriminate].
    rewrite (IH Hpre); destruct (spanDigits 10 pre); reflexivity.
Qed.

Lemma allDigits_start (pre : string) :
  pre <> EmptyString -> allDigits pre = true -> startsWithDigit pre = true.
Proof.
  destruct pre as [ | c pre]; [congruence | simpl].
  intros _ H; apply andb_prop in H; tauto.
Qed.

Lemma allDigits_starts (pre rest : string) :
  pre <> EmptyString -> allDigits pre = true ->
  startsWithDigit (pre ++ rest) = true.
Proof.
  intros Hne H; pose proof (allDigits_start pre Hne H) as Hs.
  destruct pre; [congruence | exact Hs].
Qed.

Lemma allDigits_no_hexPrefix (pre : string) :
  allDigits pre = true -> hexPrefix pre = None.
Proof.
  destruct pre as [ | c0 [ | c1 pre]]; simpl; try reflexivity.
  intros H; apply andb_prop in H as [_ H]; apply andb_prop in H as [H _].
  destruct (digit_not_hex_marker c1 H) as [-> ->].
  now rewrite andb_false_r.
Qed.

(** A text that starts with a digit has no white space or sign to drop. *)
Lemma digit_start_untouched (s : string) :
  startsWithDigit s = true -> stripSign (trimStart s) = (false, s).
Proof.
  destruct s as [ | c s]; simpl; [discriminate | ]; intros Hc.
  rewrite (digit_not_space c Hc); simpl.
  now destruct (digit_not_sign c Hc) as [-> ->].
Qed.

(** [parseInt] on a text that begins with decimal digits and is not marked
    as hexadecimal: the value of those digits. *)
Lemma parseInt_digits (pre rest : string) :
  pre <> EmptyString -> allDigits pre = true ->
  startsWithDigit rest = false ->
  hexPrefix (pre ++ rest) = None ->
  parseInt (pre ++ rest) = ofZ false (digitsValue pre).
Proof.
  intros Hne Hpre Hrest Hhex; unfold parseInt.
  rewrite (digit_start_untouched _ (allDigits_starts pre rest Hne Hpre)).
  rewrite Hhex, (spanDigits_app pre rest Hpre Hrest).
  pose proof (spanDigits_digit pre (allDigits_start pre Hne Hpre)) as Hds.
  unfold digitsValue.
  destruct (fst (spanDigits 10 pre)) as [ | d ds]; [congruence | reflexivity].
Qed.

(** [parseInt] answers NaN unless a decimal digit follows the white space
    and the sign. *)
Lemma parseInt_no_digit (s : string) :
  beginsInteger s = false -> parseInt s = NaN.
Proof.
  unfold beginsInteger, parseInt.
  destruct (stripSign (trimStart s)) as [sign body]; simpl; intros Hb.
  assert (Hhex : hexPrefix body = None).
  { destruct body as [ | c0 [ | c1 body]]; simpl in *; try reflexivity.
    now rewrite (not_digit_not_0 c0 Hb). }
  now rewrite Hhex, (spanDigits_no_digit body Hb).
Qed.

Lemma fractionPart_no_digit (s : string) :
  match s with
  | String c s' => Ascii.eqb c "." && startsWithDigit s'
  | EmptyString => false
  end = false ->
  fst (fractionPart s) = [].
Proof.
  destruct s as [ | c s]; simpl; [reflexivity | ].
  destruct (Ascii.eqb c "."); simpl; [ | reflexivity].
  intros H; now rewrite (spanDigits_no_digit s H).
Qed.

(** [parseFloat] answers NaN exactly on the texts that do not begin a
    decimal literal; on the others, a number with the sign of the text. *)
Lemma parseFloat_no_literal (s : string) :
  beginsDecimalLiteral s = false -> parseFloat s = NaN.
Proof.
  unfold beginsDecimalLiteral, parseFloat.
  destruct (stripSign (trimStart s)) as [sign body]; simpl; intros Hb.
  apply orb_false_elim in Hb as [Hb Hfrac].
  apply orb_false_elim in Hb as [Hdigit Hinf].
  rewrite Hinf, (spanDigits_no_digit body Hdigit).
  pose proof (fractionPart_no_digit body Hfrac) as Hf.
  destruct (fractionPart body) as [fracDigits afterFrac]; simpl in Hf.
  now subst fracDigits.
Qed.

Lemma parseFloat_literal (s : string) :
  beginsDecimalLiteral s = true ->
  signedAs (fst (stripSign (trimStart s))) (parseFloat s).
Proof.
  unfold beginsDecimalLiteral, parseFloat.
  destruct (stripSign (trimStart s)) as [sign body]; simpl; intros Hb.
  destruct (String.prefix "Infinity" body) eqn:Hinf; [split; reflexivity | ].
  rewrite orb_false_r in Hb.
  pose proof (spanDigits_nonneg 10 body) as Hint.
  pose proof (spanDigits_digit body) as Hsome.
  destruct (spanDigits 10 body) as [intDigits afterInt] eqn:Hspan.
  simpl in Hint, Hsome.
  assert (Hfrac : Forall (fun d => 0 <= d) (fst (fractionPart afterInt))).
  { unfold fractionPart; destruct afterInt as [ | c r]; [constructor | ].
    destruct (Ascii.eqb c "."); [apply spanDigits_nonneg | constructor]. }
  assert (Hne : (intDigits ++ fst (fractionPart afterInt))%list <> []).
  { destruct (startsWithDigit body) eqn:Hd.
    - intros Happ; apply app_eq_nil in Happ as [Hnil _]; now apply Hsome.
    - simpl in Hb.
      rewrite (spanDigits_no_digit body Hd) in Hspan.
      injection Hspan as <- <-.
      destruct body as [ | c r]; [discriminate | ].
      apply andb_prop in Hb as [Hc Hr]; simpl; rewrite Hc.
      now apply spanDigits_digit. }
  destruct (fractionPart afterInt) as [fracDigits afterFrac]; simpl in *.
  assert (Hall : Forall (fun d => 0 <= d) (intDigits ++ fracDigits)%list)
    by (apply Forall_app; split; assumption).
  destruct (intDigits ++ fracDigits)%list as [ | d ds] eqn:Hds;
    [congruence | ].
  apply ofDecimal_signedAs, mathValue_nonneg; [lia | exact Hall].
Qed.

Lemma parseFloat_NaN_iff (s : string) :
  isNaN (parseFloat s) = negb (beginsDecimalLiteral s).
Proof.
  destruct (beginsDecimalLiteral s) eqn:Hb; simpl.
  - apply parseFloat_literal, Hb.
  - now rewrite (parseFloat_no_literal s Hb).
Qed.

End Parsing.

(** ** The calculation *)

Section CalculatorFacts.

Variable Math_pow : number -> number -> number.

(** The result the calculation leaves, as a function of the fields and
    of the year. *)
Lemma calculate_result (year : Z) (st : Component) :
  result (calculateCompoundRate Math_pow year st) =
  let b := bondData st in
  let years := yearsRemainingOf year b in
  let interest := mul (annualInterestOf b) years in
  let total := add interest (nominalOf b) in
  if (isNaN (nominalOf b) || isNaN (currentOf b) || isNaN (expYearOf b)
      || isNaN (ratePercentOf b))%bool
  then None
  else if leb years zero then None
  else Some {| compoundRate :=
                 Math_pow (div total (currentOf b)) (div one years);
               totalInterestPayments := interest;
               totalReturn := total;
               yearsRemaining := years |}.
Proof.
  unfold calculateCompoundRate; rewrite div_hundred_NaN; cbv zeta.
  fold (nominalOf (bondData st)) (currentOf (bondData st))
    (expYearOf (bondData st)) (ratePercentOf (bondData st)).
  destruct (_ || _ || _ || _)%bool; [reflexivity | ].
  fold (yearsRemainingOf year (bondData st)).
  destruct (leb _ zero); reflexivity.
Qed.

(** The calculation writes the result cell only. *)
Lemma calculate_bondData (year : Z) (st : Component) :
  bondData (calculateCompoundRate Math_pow year st) = bondData st.
Proof.
  unfold calculateCompoundRate; cbv zeta.
  destruct (_ || _ || _ || _)%bool; [reflexivity | ].
  destruct (leb _ zero); reflexivity.
Qed.

Lemma allParsed_flags (b : BondData) :
  allParsed b <->
  (isNaN (nominalOf b) || isNaN (currentOf b) || isNaN (expYearOf b)
   || isNaN (ratePercentOf b))%bool = false.
Proof.
  unfold allParsed.
  destruct (isNaN (nominalOf b)), (isNaN (currentOf b)),
    (isNaN (expYearOf b)), (isNaN (ratePercentOf b)); simpl;
    intuition congruence.
Qed.

(** With the four fields parsed and a positive number of years, the
    calculation reaches its last statement. *)
Lemma calculate_present (year : Z) (st : Component) :
  allParsed (bondData st) ->
  gtb (yearsRemainingOf year (bondData st)) zero = true ->
  result (calculateCompoundRate Math_pow year st) =
  let b := bondData st in
  let years := yearsRemainingOf year b in
  let interest := mul (annualInterestOf b) years in
  let total := add interest (nominalOf b) in
  Some {| compoundRate :=
            Math_pow (div total (currentOf b)) (div one years);
          totalInterestPayments := interest;
          totalReturn := total;
          yearsRemaining := years |}.
Proof.
  intros Hp Hy; rewrite calculate_result; cbv zeta.
  apply allParsed_flags in Hp; rewrite Hp.
  apply gtb_zero_leb in Hy as [_ ->]; reflexivity.
Qed.

(** C1, as amended.  For every text in the four fields and every calendar
    year, the calculation leaves a result if and only if none of the four
    fields parses to NaN and [yearsRemaining], the parsed expiration year
    minus the current year, is greater than zero; otherwise the result is
    absent.  A field that parses to an infinity counts as parsed. *)
Theorem result_iff_parsed_and_years_positive (year : Z) (st : Component) :
  calendarYear year ->
  ((exists r, result (calculateCompoundRate Math_pow year st) = Some r)
   <-> allParsed (bondData st)
       /\ gtb (yearsRemainingOf year (bondData st)) zero = true).
Proof.
  intros Hyear; split.
  - intros [r Hr]; rewrite calculate_result in Hr; cbv zeta in Hr.
    destruct (_ || _ || _ || _)%bool eqn:Hflags; [discriminate | ].
    apply allParsed_flags in Hflags; split; [exact Hflags | ].
    destruct (leb _ zero) eqn:Hle; [discriminate | ].
    apply gtb_zero_leb; split; [ | exact Hle].
    unfold yearsRemainingOf.
    rewrite sub_finite_NaN by (apply calendarYear_finite, Hyear).
    apply Hflags.
  - intros [Hp Hy]; rewrite (calculate_present year st Hp Hy); eauto.
Qed.

(** C2.  When the four fields parse and [yearsRemaining > 0], the result
    holds [yearsRemaining = expYear - currentYear],
    [totalInterestPayments = annualInterest * yearsRemaining] with
    [annualInterest = nominal * (rate / 100)],
    [totalReturn = totalInterestPayments + nominal] and
    [compoundRate = Math.pow(totalReturn / current, 1 / yearsRemaining)],
    each operation rounded as a number, in this order. *)
Theorem result_follows_formulas (year : Z) (st : Component) :
  allParsed (bondData st) ->
  gtb (yearsRemainingOf year (bondData st)) zero = true ->
  exists r,
    result (calculateCompoundRate Math_pow year st) = Some r
    /\ yearsRemaining r = sub (expYearOf (bondData st)) (ofZ false year)
    /\ totalInterestPayments r =
         mul (mul (nominalOf (bondData st))
                  (div (ratePercentOf (bondData st)) hundred))
             (yearsRemaining r)
    /\ totalReturn r = add (totalInterestPayments r) (nominalOf (bondData st))
    /\ compoundRate r =
         Math_pow (div (totalReturn r) (currentOf (bondData st)))
                  (div one (yearsRemaining r)).
Proof.
  intros Hp Hy; rewrite (calculate_present year st Hp Hy); cbv zeta.
  eexists; split; [reflexivity | ]; simpl; repeat split; reflexivity.
Qed.

(** C3.  Whatever the other three fields hold, when [yearsRemaining <= 0],
    that is when the expiration year is not after the current year, the
    result is absent. *)
Theorem absent_when_years_not_positive (year : Z) (st : Component) :
  leb (yearsRemainingOf year (bondData st)) zero = true ->
  result (calculateCompoundRate Math_pow year st) = None.
Proof.
  intros Hle; rewrite calculate_result; cbv zeta; rewrite Hle.
  destruct (_ || _ || _ || _)%bool; reflexivity.
Qed.

(** C4, as amended.  When a field is empty, or when what follows its
    leading white space and optional sign does not begin a number (a
    decimal digit; for the three decimal fields also a point and a digit,
    or the word Infinity), the result is absent. *)
Theorem absent_without_numeric_start (year : Z) (st : Component)
  (field : BondField) :
  getField (bondData st) field = EmptyString
  \/ beginsNumber field (getField (bondData st) field) = false ->
  result (calculateCompoundRate Math_pow year st) = None.
Proof.
  intros H.
  assert (Hb : beginsNumber field (getField (bondData st) field) = false).
  { destruct H as [-> | H]; [destruct field; reflexivity | exact H]. }
  rewrite calculate_result; cbv zeta.
  replace (_ || _ || _ || _)%bool with true; [reflexivity | ].
  unfold nominalOf, currentOf, expYearOf, ratePercentOf.
  destruct field; simpl in Hb.
  - rewrite (parseFloat_no_literal _ Hb); reflexivity.
  - rewrite (parseFloat_no_literal _ Hb); simpl; now rewrite orb_true_r.
  - rewrite (parseInt_no_digit _ Hb); simpl; now rewrite !orb_true_r.
  - rewrite (parseFloat_no_literal _ Hb); simpl; now rewrite !orb_true_r.
Qed.

Lemma calculate_result_ext (year : Z) (st1 st2 : Component) :
  bondData st1 = bondData st2 ->
  result (calculateCompoundRate Math_pow year st1)
  = result (calculateCompoundRate Math_pow year st2).
Proof. intros Hb; rewrite !calculate_result, Hb; reflexivity. Qed.

Lemma Component_ext (st1 st2 : Component) :
  bondData st1 = bondData st2 -> result st1 = result st2 -> st1 = st2.
Proof. destruct st1, st2; simpl; congruence. Qed.

(** C6.  Two runs of the calculation on components that hold the same four
    texts, in the same calendar year, leave the same state, whatever
    result each component held before: the result is a function of the
    four texts and of the year. *)
Theorem calculation_deterministic (year : Z) (st1 st2 : Component) :
  bondData st1 = bondData st2 ->
  calculateCompoundRate Math_pow year st1
  = calculateCompoundRate Math_pow year st2.
Proof.
  intros Hb; apply Component_ext.
  - now rewrite !calculate_bondData.
  - now apply calculate_result_ext.
Qed.

(** Running the calculation again changes nothing. *)
Lemma calculation_idempotent (year : Z) (st : Component) :
  calculateCompoundRate Math_pow year
    (calculateCompoundRate Math_pow year st)
  = calculateCompoundRate Math_pow year st.
Proof.
  apply Component_ext.
  - now rewrite !calculate_bondData.
  - apply calculate_result_ext, calculate_bondData.
Qed.

(** C7, as amended.  For every input that leaves a result, the per-year
    interest of the formula breakdown is the quotient
    [totalInterestPayments / yearsRemaining] of the two stored values,
    that is [((nominal * (rate / 100)) * yearsRemaining) / yearsRemaining]
    with each operation rounded; the multiplicand [annualInterest] is not
    stored.  The quotient is not said to equal [annualInterest]. *)
Theorem displayed_interest_is_fresh_quotient (year : Z) (st : Component)
  (r : CalculationResult) :
  result (calculateCompoundRate Math_pow year st) = Some r ->
  displayedAnnualInterest r = div (totalInterestPayments r) (yearsRemaining r)
  /\ displayedAnnualInterest r =
       div (mul (annualInterestOf (bondData st))
                (yearsRemainingOf year (bondData st)))
           (yearsRemainingOf year (bondData st)).
Proof.
  rewrite calculate_result; cbv zeta.
  destruct (_ || _ || _ || _)%bool; [discriminate | ].
  destruct (leb _ zero); [discriminate | ].
  intros [= <-]; split; reflexivity.
Qed.

(** C8.  [handleInputChange] gives the named field the new text; each of
    the other three fields, and the held result, keep the value they
    had. *)
Theorem handleInputChange_frame (field : BondField) (value : string)
  (st : Component) (other : BondField) :
  getField (bondData (handleInputChange field value st)) other
  = (if BondField_eqb other field then value
     else getField (bondData st) other)
  /\ result (handleInputChange field value st) = result st.
Proof. destruct field, other; split; reflexivity. Qed.

Lemma mul_not_NaN (x y : number) :
  isNaN (mul x y) = false -> isNaN x = false /\ isNaN y = false.
Proof.
  destruct x, y; simpl; try discriminate; split; reflexivity.
Qed.

Lemma gtb_zero_sign (x : number) : gtb x zero = true -> signBit x = false.
Proof.
  destruct x as [sx | sx | | sx mx ex]; try destruct sx;
    unfold gtb, SFltb; simpl; congruence.
Qed.

End CalculatorFacts.

(** ** Years as integers

    For an expiration year and a current year below 2^53, the subtraction
    of the calculation is exact, and [yearsRemaining <= 0] says that the
    expiration year is not after the current year. *)

Section IntegerYears.

Lemma shl_align_value (m : positive) (e ez : Z) :
  ez <= e -> Zpos (fst (shl_align m e ez)) = Zpos m * 2 ^ (e - ez).
Proof.
  intros Hle; unfold shl_align.
  destruct (ez - e) as [ | k | k] eqn:Hk; simpl fst; try lia.
  - replace (e - ez) with 0 by lia; simpl; lia.
  - rewrite iter_xO_value; f_equal; f_equal; lia.
Qed.

Lemma negative_leb_zero (x : number) : signedAs true x -> leb x zero = true.
Proof.
  intros [Hn Hs]; destruct x as [sx | sx | | sx mx ex]; simpl in *;
    try discriminate; subst; reflexivity.
Qed.

(** The number of a small integer: its sign, and a mantissa and exponent
    that give back its absolute value. *)
Lemma ofZ_exact (negzero : bool) (z : Z) :
  Z.abs z < 2 ^ prec -> z <> 0 ->
  exists m e,
    ofZ negzero z = S754_finite (z <? 0) m e
    /\ e <= 0 /\ Zpos m = Z.abs z * 2 ^ (- e).
Proof.
  intros Hz Hnz; unfold ofZ, binary_normalize.
  destruct z as [ | p | p]; [congruence | | ]; cbn [Z.abs] in Hz.
  - destruct (binary_round_small false p (small_digits p Hz))
      as (mz & ez & Hr & He & Hv).
    exists mz, ez; rewrite Hr; simpl; auto.
  - destruct (binary_round_small true p (small_digits p Hz))
      as (mz & ez & Hr & He & Hv).
    exists mz, ez; rewrite Hr; simpl; auto.
Qed.

Lemma aligned_value (z : Z) (m : positive) (e ez : Z) :
  z <> 0 -> e <= 0 -> ez <= e -> Zpos m = Z.abs z * 2 ^ (- e) ->
  cond_Zopp (z <? 0) (Zpos (fst (shl_align m e ez))) = z * 2 ^ (- ez).
Proof.
  intros Hnz He Hez Hm.
  rewrite (shl_align_value m e ez Hez), Hm, <- Z.mul_assoc.
  rewrite <- Z.pow_add_r by lia.
  replace (- e + (e - ez)) with (- ez) by lia.
  destruct (z <? 0) eqn:Hs; simpl.
  - apply Z.ltb_lt in Hs; rewrite Z.abs_neq by lia; ring.
  - apply Z.ltb_ge in Hs; rewrite Z.abs_eq by lia; ring.
Qed.

Lemma integer_difference_not_positive (negzero : bool) (n year : Z) :
  Z.abs n < 2 ^ prec -> Z.abs year < 2 ^ prec -> n <= year ->
  leb (sub (ofZ negzero n) (ofZ false year)) zero = true.
Proof.
  intros Hn Hy Hle.
  destruct (Z.eq_dec n 0) as [-> | Hn0], (Z.eq_dec year 0) as [-> | Hy0].
  - destruct negzero; reflexivity.
  - destruct (ofZ_exact false year Hy Hy0) as (my & ey & -> & _).
    replace (year <? 0) with false by (symmetry; apply Z.ltb_ge; lia).
    reflexivity.
  - destruct (ofZ_exact negzero n Hn Hn0) as (mn & en & -> & _).
    replace (n <? 0) with true by (symmetry; apply Z.ltb_lt; lia).
    reflexivity.
  - destruct (ofZ_exact negzero n Hn Hn0) as (mn & en & -> & Hen & Hmn).
    destruct (ofZ_exact false year Hy Hy0) as (my & ey & -> & Hey & Hmy).
    unfold sub, SFsub.
    rewrite (aligned_value n mn en (Z.min en ey)) by (auto; lia).
    rewrite (aligned_value year my ey (Z.min en ey)) by (auto; lia).
    rewrite <- Z.mul_sub_distr_r.
    assert (Hpow : 0 < 2 ^ (- Z.min en ey)) by (apply Z.pow_pos_nonneg; lia).
    destruct ((n - year) * 2 ^ (- Z.min en ey)) as [ | p | p] eqn:Hd;
      [reflexivity | nia | ].
    apply negative_leb_zero, binary_round_signedAs.
Qed.

(** An expiration year that reads as the integer [n], in the calendar year
    [year], with [n <= year]: [yearsRemaining <= 0]. *)
Lemma integer_years_not_positive (negzero : bool) (n year : Z)
  (b : BondData) :
  expYearOf b = ofZ negzero n ->
  Z.abs n < 2 ^ prec -> calendarYear year -> n <= year ->
  leb (yearsRemainingOf year b) zero = true.
Proof.
  intros Hexp Hn [Hlo Hhi] Hle; unfold yearsRemainingOf; rewrite Hexp.
  apply integer_difference_not_positive; auto.
  assert (2 ^ 19 <= 2 ^ prec) by (apply Z.pow_le_mono_r; unfold prec; lia).
  change (2 ^ 19) with 524288 in *; lia.
Qed.

End IntegerYears.

(** ** The calculation on concrete inputs *)

(** The first scenario of the specification: 1000 at 2.5 % bought at 900,
    five years before expiration. *)
Example scenario_five_years :
  exists r,
    result (calculateCompoundRate powSample 2026
              (holding (bond "1000" "900" "2031" "2.5"))) = Some r
    /\ annualInterestOf (bond "1000" "900" "2031" "2.5") = parseFloat "25"
    /\ totalInterestPayments r = parseFloat "125"
    /\ totalReturn r = parseFloat "1125"
    /\ yearsRemaining r = parseFloat "5"
    /\ displayedAnnualInterest r = parseFloat "25"
    /\ displayedProfit (bond "1000" "900" "2031" "2.5") r = parseFloat "225".
Proof. eexists; split; [vm_compute; reflexivity | ]; repeat split. Qed.

(** The second scenario: no interest, one year, bought at par. *)
Example scenario_at_par :
  exists r,
    result (calculateCompoundRate powSample 2026
              (holding (bond "1000" "1000" "2027" "0"))) = Some r
    /\ totalInterestPayments r = zero
    /\ totalReturn r = parseFloat "1000"
    /\ compoundRate r = one
    /\ displayedYield r = zero.
Proof. eexists; split; [vm_compute; reflexivity | ]; repeat split. Qed.

(** The third scenario: a bond that expires in the current year. *)
Example scenario_expiring_now :
  result (calculateCompoundRate powSample 2026
            (holding (bond "1000" "900" "2026" "2.5"))) = None.
Proof. reflexivity. Qed.

(** On mount the four fields are empty and no result is shown. *)
Example mounted_component_has_no_result :
  result (calculateCompoundRate powSample 2026 initialComponent) = None.
Proof. reflexivity. Qed.

(** C1: the sentence of the specification fails on a nominal value of
    Infinity, which [parseFloat] reads as a number that is not NaN: the
    result is left although a field is not finite. *)
Lemma infinite_field_leaves_result : ~ resultIffFiniteInputs.
Proof.
  intros H.
  destruct (H powSample 2026 (holding (bond "Infinity" "900" "2031" "2.5")))
    as [Hfinite _]; [unfold calendarYear; lia | ].
  destruct Hfinite as [[Hnominal _] _].
  - eexists; vm_compute; reflexivity.
  - vm_compute in Hnominal; discriminate.
Qed.

Lemma result_iff_parsed_and_years_positive_witness :
  (exists r,
      result (calculateCompoundRate powSample 2026
                (holding (bond "1000" "900" "2031" "2.5"))) = Some r)
  <-> allParsed (bond "1000" "900" "2031" "2.5")
      /\ gtb (yearsRemainingOf 2026 (bond "1000" "900" "2031" "2.5")) zero
         = true.
Proof.
  apply (result_iff_parsed_and_years_positive powSample 2026
           (holding (bond "1000" "900" "2031" "2.5"))).
  unfold calendarYear; lia.
Defined.

Lemma result_follows_formulas_witness :
  exists r,
    result (calculateCompoundRate powSample 2026
              (holding (bond "1000" "900" "2031" "2.5"))) = Some r
    /\ yearsRemaining r = sub (parseInt "2031") (ofZ false 2026)
    /\ totalInterestPayments r =
         mul (mul (parseFloat "1000") (div (parseFloat "2.5") hundred))
             (yearsRemaining r)
    /\ totalReturn r = add (totalInterestPayments r) (parseFloat "1000")
    /\ compoundRate r =
         powSample (div (totalReturn r) (parseFloat "900"))
                   (div one (yearsRemaining r)).
Proof.
  apply (result_follows_formulas powSample 2026
           (holding (bond "1000" "900" "2031" "2.5"))).
  - vm_compute; repeat split; reflexivity.
  - vm_compute; reflexivity.
Defined.

Lemma absent_when_years_not_positive_witness :
  result (calculateCompoundRate powSample 2026
            (holding (bond "1000" "900" "2020" "2.5"))) = None.
Proof.
  apply (absent_when_years_not_positive powSample 2026
           (holding (bond "1000" "900" "2020" "2.5"))).
  vm_compute; reflexivity.
Defined.

(** C4: the sentence of the specification fails on a nominal value that
    contains non-numeric text after a number. *)
Lemma text_after_number_leaves_result : ~ absentOnNonNumericText.
Proof.
  intros H.
  pose proof (H powSample 2026 (holding (bond "1000 EUR" "900" "2031" "2.5"))
                NominalValue (or_intror eq_refl)) as Habsent.
  vm_compute in Habsent; discriminate.
Qed.

Lemma absent_without_numeric_start_witness :
  result (calculateCompoundRate powSample 2026
            (holding (bond "1000" "EUR 900" "2031" "2.5"))) = None.
Proof.
  apply (absent_without_numeric_start powSample 2026
           (holding (bond "1000" "EUR 900" "2031" "2.5")) CurrentValue).
  right; vm_compute; reflexivity.
Defined.

Lemma calculation_deterministic_witness :
  calculateCompoundRate powSample 2026
    (holding (bond "1000" "900" "2031" "2.5"))
  = calculateCompoundRate powSample 2026
      {| bondData := bond "1000" "900" "2031" "2.5";
         result := Some {| compoundRate := one; totalInterestPayments := zero;
                           totalReturn := one; yearsRemaining := one |} |}.
Proof.
  apply (calculation_deterministic powSample 2026); reflexivity.
Defined.

(** C7: the sentence of the specification fails on 1 at 10 % over three
    years: the annual interest is 0.1, three times 0.1 rounds to
    0.30000000000000004, and a third of that rounds to
    0.10000000000000002. *)
Lemma displayed_interest_differs : ~ displayedInterestIsAnnualInterest.
Proof.
  intros H.
  destruct (result (calculateCompoundRate powSample 2026
                      (holding (bond "1" "1" "2029" "10")))) as [r | ] eqn:Hr;
    [ | vm_compute in Hr; discriminate].
  pose proof (H powSample 2026 _ r Hr) as Heq.
  vm_compute in Hr; injection Hr as <-.
  vm_compute in Heq; discriminate.
Qed.

Example one_tenth_times_three_over_three :
  annualInterestOf (bond "1" "1" "2029" "10") = parseFloat "0.1"
  /\ option_map displayedAnnualInterest
       (result (calculateCompoundRate powSample 2026
                  (holding (bond "1" "1" "2029" "10"))))
     = Some (parseFloat "0.10000000000000002")
  /\ parseFloat "0.10000000000000002" <> parseFloat "0.1".
Proof.
  split; [vm_compute; reflexivity | split].
  - vm_compute; reflexivity.
  - vm_compute; discriminate.
Qed.

Lemma displayed_interest_is_fresh_quotient_witness :
  exists r,
    result (calculateCompoundRate powSample 2026
              (holding (bond "1" "1" "2029" "10"))) = Some r
    /\ displayedAnnualInterest r
       = div (totalInterestPayments r) (yearsRemaining r)
    /\ displayedAnnualInterest r
       = div (mul (annualInterestOf (bond "1" "1" "2029" "10"))
                  (yearsRemainingOf 2026 (bond "1" "1" "2029" "10")))
             (yearsRemainingOf 2026 (bond "1" "1" "2029" "10")).
Proof.
  eexists; split; [vm_compute; reflexivity | ].
  apply (displayed_interest_is_fresh_quotient powSample 2026
           (holding (bond "1" "1" "2029" "10"))).
  vm_compute; reflexivity.
Defined.

(** C9: the sentence of the specification fails on a year that begins
    with 0x: the integer prefix is 0, and [parseInt] reads 4096. *)
Lemma hexadecimal_year_not_truncated : ~ yearPrefixTruncated.
Proof.
  intros H.
  assert (Heq : parseInt ("0" ++ "x1000") = ofZ false (digitsValue "0")).
  { apply H; [discriminate | reflexivity | discriminate | reflexivity]. }
  vm_compute in Heq; discriminate.
Qed.

Example hexadecimal_year_leaves_result :
  parseInt "0x1000" = parseFloat "4096"
  /\ parseInt "0xg" = NaN
  /\ exists r,
       result (calculateCompoundRate powSample 2026
                 (holding (bond "1000" "900" "0x1000" "2.5"))) = Some r
       /\ yearsRemaining r = parseFloat "2070".
Proof.
  repeat split; eexists; split; vm_compute; reflexivity.
Qed.

(** A coupon rate of -2.5 % on 1000 over five years: -125 of interest. *)
Example negative_rate_negative_interest :
  exists r,
    result (calculateCompoundRate powSample 2026
              (holding (bond "1000" "900" "2031" "-2.5"))) = Some r
    /\ totalInterestPayments r = parseFloat "-125"
    /\ totalReturn r = parseFloat "875".
Proof. eexists; split; [vm_compute; reflexivity | ]; repeat split. Qed.

(** ** Exact subtraction of integers *)

Section ExactSubtraction.

Lemma iter_pos_nat {A : Type} (f : A -> A) (p : positive) (x : A) :
  iter_pos f p x = Nat.iter (Pos.to_nat p) f x.
Proof.
  revert x; induction p as [p IH | p IH | ]; intros x; simpl iter_pos.
  - rewrite !IH, Pos2Nat.inj_xI, <- Nat.iter_add, <- Nat.iter_succ_r.
    f_equal; lia.
  - rewrite !IH, Pos2Nat.inj_xO, <- Nat.iter_add; f_equal; lia.
  - reflexivity.
Qed.

(** Shifting out [j] zero bits loses nothing. *)
Lemma shr_1_zero_bits (j : nat) (w : positive) (m : Z) :
  m = Zpos w * 2 ^ Z.of_nat j ->
  Nat.iter j shr_1 {| shr_m := m; shr_r := false; shr_s := false |}
  = {| shr_m := Zpos w; shr_r := false; shr_s := false |}.
Proof.
  revert w m; induction j as [ | j IH]; intros w m Hm.
  - simpl in *; f_equal; lia.
  - rewrite Nat.iter_succ, (IH (xO w)); [reflexivity | ].
    rewrite Hm, Nat2Z.inj_succ, Z.pow_succ_r by lia.
    rewrite (Pos2Z.inj_xO w); ring.
Qed.

Lemma digits2_pos_scaled (m w : positive) (j : Z) :
  0 <= j -> Zpos m = Zpos w * 2 ^ j ->
  Zpos (digits2_pos m) = Zpos (digits2_pos w) + j.
Proof.
  intros Hj Hm; destruct j as [ | j | j]; [ | | lia].
  - replace m with w by (simpl in Hm; lia); lia.
  - rewrite <- iter_xO_value in Hm; injection Hm as ->.
    rewrite digits2_pos_iter_xO, Pos2Z.inj_add; reflexivity.
Qed.

(** A mantissa of 53 bits followed by zero bits rounds to the 53 bits. *)
Lemma binary_round_aux_zero_bits (sx : bool) (m mz : positive) (e t : Z) :
  Zpos (digits2_pos mz) = prec -> emin prec emax <= t <= emax - prec ->
  e <= t -> Zpos m = Zpos mz * 2 ^ (t - e) ->
  binary_round_aux prec emax sx (Zpos m) e loc_Exact = S754_finite sx mz t.
Proof.
  intros Hdz Ht He Hm.
  pose proof (digits2_pos_scaled m mz (t - e) ltac:(lia) Hm) as Hdm.
  unfold binary_round_aux, shr_fexp; simpl Zdigits2.
  replace (fexp prec emax (Zpos (digits2_pos m) + e) - e) with (t - e)
    by (rewrite Hdm, Hdz; unfold fexp; lia).
  assert (Hshr : shr (shr_record_of_loc (Zpos m) loc_Exact) e (t - e)
                 = ({| shr_m := Zpos mz; shr_r := false; shr_s := false |},
                    t)).
  { unfold shr; destruct (t - e) as [ | j | j] eqn:Hj; [ | | lia].
    - replace m with mz by (simpl in Hm; lia).
      replace e with t by lia; reflexivity.
    - rewrite iter_pos_nat; cbn [shr_record_of_loc].
      rewrite (shr_1_zero_bits _ mz); [f_equal; lia | ].
      rewrite positive_nat_Z; exact Hm. }
  rewrite Hshr; cbn [shr_m shr_r shr_s loc_of_shr_record round_nearest_even].
  simpl Zdigits2.
  replace (fexp prec emax (Zpos (digits2_pos mz) + t) - t) with 0
    by (rewrite Hdz; unfold fexp; lia).
  cbn [shr shr_record_of_loc shr_m].
  replace (t <=? emax - prec) with true by (symmetry; apply Z.leb_le; lia).
  reflexivity.
Qed.

(** Rounding [v * 2^k] at exponent [-k], for an integer [v] of at most 53
    bits: the mantissa is [v] aligned on 53 bits, whatever [k]. *)
Lemma binary_round_integer (sx : bool) (p v : positive) (k : Z) :
  0 <= k -> Zpos p = Zpos v * 2 ^ k ->
  Zpos (digits2_pos v) <= prec ->
  exists mz,
    binary_round prec emax sx p (- k)
    = S754_finite sx mz (Zpos (digits2_pos v) - prec)
    /\ Zpos mz = Zpos v * 2 ^ (prec - Zpos (digits2_pos v)).
Proof.
  intros Hk Hp Hd.
  pose proof (digits2_pos_scaled p v k Hk Hp) as Hdp.
  set (d := Zpos (digits2_pos v)) in *.
  set (mz := Z.to_pos (Zpos v * 2 ^ (prec - d))).
  assert (Hmz : Zpos mz = Zpos v * 2 ^ (prec - d)).
  { subst mz; rewrite Z2Pos.id; [reflexivity | ].
    apply Z.mul_pos_pos; [lia | apply Z.pow_pos_nonneg; lia]. }
  pose proof (digits2_pos_scaled mz v (prec - d) ltac:(lia) Hmz) as Hdz.
  fold d in Hdz.
  exists mz; split; [ | exact Hmz].
  unfold binary_round; rewrite Hdp.
  replace (fexp prec emax (d + k + - k)) with (d - prec)
    by (unfold fexp, emin, prec, emax in *; lia).
  assert (Hrange : emin prec emax <= d - prec <= emax - prec)
    by (unfold emin, prec, emax in *; lia).
  unfold shl_align.
  destruct (d - prec - - k) as [ | j | j] eqn:Hj.
  - apply binary_round_aux_zero_bits; try lia.
    rewrite Hj, Z.pow_0_r, Z.mul_1_r.
    replace k with (prec - d) in Hp by lia; congruence.
  - apply binary_round_aux_zero_bits; try lia.
    rewrite Hj, Hp, Hmz, <- Z.mul_assoc, <- Z.pow_add_r by lia.
    f_equal; f_equal; lia.
  - apply binary_round_aux_zero_bits; try lia.
    rewrite Z.sub_diag, Z.pow_0_r, Z.mul_1_r, iter_xO_value, Hp, Hmz.
    rewrite <- Z.mul_assoc, <- Z.pow_add_r by lia; f_equal; f_equal; lia.
Qed.

(** The bits of the absolute value of an integer. *)
Lemma small_abs_digits (z : Z) :
  z <> 0 -> Z.abs z < 2 ^ prec ->
  Zpos (Z.to_pos (Z.abs z)) = Z.abs z
  /\ Zpos (digits2_pos (Z.to_pos (Z.abs z))) <= prec.
Proof.
  intros Hz Hlt.
  assert (H : Zpos (Z.to_pos (Z.abs z)) = Z.abs z) by (apply Z2Pos.id; lia).
  split; [exact H | apply small_digits; lia].
Qed.

(** The number of a small integer, in full. *)
Lemma ofZ_canonical (negzero : bool) (z : Z) :
  z <> 0 -> Z.abs z < 2 ^ prec ->
  exists mz,
    ofZ negzero z
    = S754_finite (z <? 0) mz
        (Zpos (digits2_pos (Z.to_pos (Z.abs z))) - prec)
    /\ Zpos mz
       = Z.abs z * 2 ^ (prec - Zpos (digits2_pos (Z.to_pos (Z.abs z)))).
Proof.
  intros Hz Hlt.
  destruct (small_abs_digits z Hz Hlt) as [Hv Hd].
  unfold ofZ, binary_normalize.
  destruct z as [ | p | p]; [congruence | | ]; simpl in *.
  - destruct (binary_round_integer false p p 0) as (mz & Hr & Hm);
      [lia | lia | exact Hd | ].
    exists mz; split; assumption.
  - destruct (binary_round_integer true p p 0) as (mz & Hr & Hm);
      [lia | lia | exact Hd | ].
    exists mz; split; assumption.
Qed.

(** Rounding a scaled small integer gives the number of the integer. *)
Lemma binary_normalize_scaled (z k : Z) :
  0 <= k -> Z.abs z < 2 ^ prec ->
  binary_normalize prec emax (z * 2 ^ k) (- k) false = ofZ false z.
Proof.
  intros Hk Hlt.
  destruct (Z.eq_dec z 0) as [-> | Hz]; [reflexivity | ].
  destruct (small_abs_digits z Hz Hlt) as [Hv Hd].
  destruct (ofZ_canonical false z Hz Hlt) as (mz & -> & Hmz).
  assert (Hpow : 0 < 2 ^ k) by (apply Z.pow_pos_nonneg; lia).
  unfold binary_normalize.
  destruct (z * 2 ^ k) as [ | p | p] eqn:Hp; [nia | | ].
  - destruct (binary_round_integer false p (Z.to_pos (Z.abs z)) k)
      as (m & -> & Hm); [lia | rewrite Hv; nia | exact Hd | ].
    replace (z <? 0) with false by (symmetry; apply Z.ltb_ge; nia).
    f_equal; rewrite Hv in Hm; lia.
  - destruct (binary_round_integer true p (Z.to_pos (Z.abs z)) k)
      as (m & -> & Hm); [lia | rewrite Hv; nia | exact Hd | ].
    replace (z <? 0) with true by (symmetry; apply Z.ltb_lt; nia).
    f_equal; rewrite Hv in Hm; lia.
Qed.

(** The difference of two small integers whose difference is small too:
    no rounding. *)
Lemma sub_integers_exact (a b : Z) :
  Z.abs a < 2 ^ prec -> Z.abs b < 2 ^ prec -> Z.abs (a - b) < 2 ^ prec ->
  sub (ofZ false a) (ofZ false b) = ofZ false (a - b).
Proof.
  intros Ha Hb Hab.
  destruct (Z.eq_dec a 0) as [-> | Ha0], (Z.eq_dec b 0) as [-> | Hb0].
  - reflexivity.
  - destruct (ofZ_canonical false b Hb0 Hb) as (mb & -> & Hmb).
    destruct (ofZ_canonical false (0 - b)) as (m & -> & Hm); [lia | lia | ].
    simpl Z.sub in *; rewrite Z.abs_opp in *.
    replace (- b <? 0) with (negb (b <? 0))
      by (destruct (Z.ltb_spec b 0), (Z.ltb_spec (- b) 0); simpl; lia).
    simpl; f_equal; lia.
  - rewrite Z.sub_0_r.
    destruct (ofZ_canonical false a Ha0 Ha) as (ma & -> & _); reflexivity.
  - destruct (ofZ_exact false a Ha Ha0) as (ma & ea & -> & Hea & Hma).
    destruct (ofZ_exact false b Hb Hb0) as (mb & eb & -> & Heb & Hmb).
    unfold sub, SFsub.
    rewrite (aligned_value a ma ea (Z.min ea eb)) by (auto; lia).
    rewrite (aligned_value b mb eb (Z.min ea eb)) by (auto; lia).
    rewrite <- Z.mul_sub_distr_r.
    set (k := - Z.min ea eb).
    replace (Z.min ea eb) with (- k) by (subst k; lia).
    apply binary_normalize_scaled; [subst k; lia | exact Hab].
Qed.

End ExactSubtraction.

(** ** More facts about the two parsers *)

Section MoreParsing.

Lemma digitValue_decimal (c : ascii) (d : Z) :
  digitValue 10 c = Some d -> 0 <= d <= 9.
Proof.
  unfold digitValue.
  destruct ((48 <=? Z.of_N (N_of_ascii c)) && (Z.of_N (N_of_ascii c) <=? 57))
    eqn:Hc; [ | discriminate].
  apply andb_prop in Hc as [Hlo Hhi].
  apply Z.leb_le in Hlo, Hhi; intros [= <-]; lia.
Qed.

Lemma spanDigits_decimal (s : string) :
  Forall (fun d => 0 <= d <= 9) (fst (spanDigits 10 s)).
Proof.
  induction s as [ | c s IH]; simpl; [constructor | ].
  destruct (digitValue 10 c) as [d | ] eqn:Hd; [ | constructor].
  destruct (spanDigits 10 s) as [ds rest]; simpl in *.
  constructor; eauto using digitValue_decimal.
Qed.

Lemma spanDigits_length (s : string) :
  (List.length (fst (spanDigits 10 s)) <= String.length s)%nat.
Proof.
  induction s as [ | c s IH]; simpl; [lia | ].
  destruct (digitValue 10 c); simpl; [ | lia].
  destruct (spanDigits 10 s); simpl in *; lia.
Qed.

Lemma fold_digits_bound (ds : list Z) (acc : Z) :
  Forall (fun d => 0 <= d <= 9) ds -> 0 <= acc ->
  0 <= fold_left (fun acc d => acc * 10 + d) ds acc
    < (acc + 1) * 10 ^ Z.of_nat (List.length ds).
Proof.
  intros Hds; revert acc; induction Hds as [ | d ds Hd Hds IH];
    intros acc Hacc; simpl fold_left.
  - simpl; lia.
  - specialize (IH (acc * 10 + d) ltac:(lia)).
    change (List.length (d :: ds)) with (S (List.length ds)).
    rewrite Nat2Z.inj_succ, Z.pow_succ_r by lia.
    assert (0 < 10 ^ Z.of_nat (List.length ds))
      by (apply Z.pow_pos_nonneg; lia).
    nia.
Qed.

(** A run of [n] decimal digits is worth less than [10^n]. *)
Lemma digitsValue_bound (s : string) :
  0 <= digitsValue s < 10 ^ Z.of_nat (String.length s).
Proof.
  unfold digitsValue, mathValue.
  pose proof (fold_digits_bound _ 0 (spanDigits_decimal s) ltac:(lia)) as H.
  pose proof (spanDigits_length s) as Hl.
  assert (10 ^ Z.of_nat (List.length (fst (spanDigits 10 s)))
          <= 10 ^ Z.of_nat (String.length s))
    by (apply Z.pow_le_mono_r; lia).
  lia.
Qed.

Lemma trimStart_white_space (ws s : string) :
  allWhiteSpace ws = true -> trimStart (ws ++ s) = trimStart s.
Proof.
  induction ws as [ | c ws IH]; simpl; [reflexivity | ].
  intros H; apply andb_prop in H as [-> H]; auto.
Qed.

(** Leading white space does not change what the parsers read. *)
Lemma parseFloat_white_space (ws s : string) :
  allWhiteSpace ws = true -> parseFloat (ws ++ s) = parseFloat s.
Proof.
  intros H; unfold parseFloat; now rewrite (trimStart_white_space ws s H).
Qed.

Lemma parseInt_white_space (ws s : string) :
  allWhiteSpace ws = true -> parseInt (ws ++ s) = parseInt s.
Proof.
  intros H; unfold parseInt; now rewrite (trimStart_white_space ws s H).
Qed.

Lemma append_assoc (a b c : string) : (a ++ b) ++ c = a ++ b ++ c.
Proof. induction a as [ | x a IH]; simpl; congruence. Qed.

Lemma append_empty (a : string) : a ++ EmptyString = a.
Proof. induction a as [ | x a IH]; simpl; congruence. Qed.

Lemma endsLiteral_no_digit (s : string) :
  endsLiteral s = true -> startsWithDigit s = false.
Proof.
  destruct s as [ | c s]; simpl; [reflexivity | ].
  destruct (isDecimalDigit c); simpl; congruence.
Qed.

Lemma endsLiteral_exponent (s : string) :
  endsLiteral s = true -> exponentPart s = 0.
Proof.
  destruct s as [ | c s]; simpl; [reflexivity | ].
  destruct (Ascii.eqb c "e"), (Ascii.eqb c "E"); simpl;
    rewrite ?orb_true_r; simpl; congruence.
Qed.

Lemma endsLiteral_fraction (s : string) :
  endsLiteral s = true -> fractionPart s = ([], s).
Proof.
  destruct s as [ | c s]; simpl; [reflexivity | ].
  destruct (Ascii.eqb c "."); simpl; [ | reflexivity].
  rewrite orb_true_r; simpl; congruence.
Qed.

(** What [parseFloat] makes of decimal digits, an optional point with
    digits, and then a text that cannot go on the literal. *)
Lemma parseFloat_plain (pre tail rest : string) :
  pre <> EmptyString -> allDigits pre = true ->
  isFractionTail tail = true -> endsLiteral rest = true ->
  parseFloat (pre ++ tail ++ rest) =
  match (fst (spanDigits 10 pre)
         ++ match tail with
            | String _ frac => fst (spanDigits 10 frac)
            | EmptyString => []
            end)%list with
  | [] => NaN
  | ds =>
      ofDecimal false (mathValue 10 ds)
        (- Z.of_nat (List.length
                       match tail with
                       | String _ frac => fst (spanDigits 10 frac)
                       | EmptyString => []
                       end))
  end.
Proof.
  intros Hne Hpre Htail Hrest; unfold parseFloat.
  rewrite (digit_start_untouched _ (allDigits_starts pre _ Hne Hpre)).
  assert (Hinf : String.prefix "Infinity" (pre ++ tail ++ rest) = false).
  { destruct pre as [ | c pre]; [congruence | ].
    simpl in Hpre; apply andb_prop in Hpre as [Hc _].
    cbn [append String.prefix].
    destruct (ascii_dec "I" c) as [<- | Hn];
      [vm_compute in Hc; discriminate | reflexivity]. }
  rewrite Hinf.
  destruct tail as [ | c frac]; simpl in Htail.
  - simpl append.
    rewrite (spanDigits_app pre rest Hpre (endsLiteral_no_digit _ Hrest)).
    rewrite (endsLiteral_fraction rest Hrest).
    rewrite (endsLiteral_exponent rest Hrest).
    reflexivity.
  - apply andb_prop in Htail as [Hc Hfrac]; apply Ascii.eqb_eq in Hc; subst c.
    cbn [append].
    rewrite (spanDigits_app pre (String "." (frac ++ rest)) Hpre eq_refl).
    cbn [fractionPart]; rewrite Ascii.eqb_refl.
    rewrite (spanDigits_app frac rest Hfrac (endsLiteral_no_digit _ Hrest)).
    rewrite (endsLiteral_exponent rest Hrest); reflexivity.
Qed.

(** Text after a plain decimal number is not read. *)
Lemma parseFloat_trailing (pre tail rest : string) :
  pre <> EmptyString -> allDigits pre = true ->
  isFractionTail tail = true -> endsLiteral rest = true ->
  parseFloat (pre ++ tail ++ rest) = parseFloat (pre ++ tail).
Proof.
  intros Hne Hpre Htail Hrest.
  rewrite (parseFloat_plain pre tail rest Hne Hpre Htail Hrest).
  replace (parseFloat (pre ++ tail))
    with (parseFloat (pre ++ tail ++ EmptyString))
    by now rewrite append_empty.
  now rewrite (parseFloat_plain pre tail EmptyString Hne Hpre Htail eq_refl).
Qed.

End MoreParsing.

(** ** The calculation, further *)

Section MoreCalculatorFacts.

Variable Math_pow : number -> number -> number.

(** What a held result says of the fields it was computed from. *)
Lemma calculate_some (year : Z) (st : Component) (r : CalculationResult) :
  result (calculateCompoundRate Math_pow year st) = Some r ->
  allParsed (bondData st)
  /\ leb (yearsRemainingOf year (bondData st)) zero = false
  /\ yearsRemaining r = yearsRemainingOf year (bondData st)
  /\ totalInterestPayments r =
       mul (annualInterestOf (bondData st)) (yearsRemaining r)
  /\ totalReturn r = add (totalInterestPayments r) (nominalOf (bondData st))
  /\ compoundRate r =
       Math_pow (div (totalReturn r) (currentOf (bondData st)))
                (div one (yearsRemaining r)).
Proof.
  rewrite calculate_result; cbv zeta.
  destruct (_ || _ || _ || _)%bool eqn:Hflags; [discriminate | ].
  destruct (leb _ zero) eqn:Hle; [discriminate | ].
  intros [= <-]; simpl; apply allParsed_flags in Hflags; auto 10.
Qed.

Lemma ofZ_gtb_zero (z : Z) :
  Z.abs z < 2 ^ prec -> gtb (ofZ false z) zero = (0 <? z).
Proof.
  intros Hz; destruct (Z.eq_dec z 0) as [-> | Hz0]; [reflexivity | ].
  destruct (ofZ_exact false z Hz Hz0) as (m & e & -> & _).
  unfold gtb, SFltb; simpl.
  destruct (Z.ltb_spec z 0), (Z.ltb_spec 0 z); try reflexivity; lia.
Qed.

Lemma yearText_value (pre rest : string) :
  yearText pre rest -> 0 <= digitsValue pre < 10 ^ 15.
Proof.
  intros (_ & _ & _ & _ & Hlen).
  pose proof (digitsValue_bound pre) as Hb.
  assert (10 ^ Z.of_nat (String.length pre) <= 10 ^ 15)
    by (apply Z.pow_le_mono_r; lia).
  lia.
Qed.

Lemma yearText_years (year : Z) (b : BondData) (pre rest : string) :
  expirationYear b = pre ++ rest -> yearText pre rest ->
  calendarYear year ->
  yearsRemainingOf year b = ofZ false (digitsValue pre - year)
  /\ isNaN (expYearOf b) = false
  /\ Z.abs (digitsValue pre - year) < 2 ^ prec.
Proof.
  intros Hexp Htext [Hlo Hhi].
  pose proof (yearText_value pre rest Htext) as Hv.
  destruct Htext as (Hne & Hpre & Hrest & Hhex & _).
  assert (Hp : 2 ^ prec = 9007199254740992) by reflexivity.
  change (10 ^ 15) with 1000000000000000 in Hv.
  unfold yearsRemainingOf, expYearOf.
  rewrite Hexp, (parseInt_digits pre rest Hne Hpre Hrest Hhex).
  repeat split; [ | apply ofZ_not_NaN | lia].
  apply sub_integers_exact; lia.
Qed.

Lemma yearText_positive (year : Z) (b : BondData) (pre rest : string) :
  expirationYear b = pre ++ rest -> yearText pre rest ->
  calendarYear year ->
  gtb (yearsRemainingOf year b) zero = (year <? digitsValue pre).
Proof.
  intros Hexp Htext Hyear.
  destruct (yearText_years year b pre rest Hexp Htext Hyear)
    as (-> & _ & Habs).
  rewrite (ofZ_gtb_zero _ Habs).
  destruct (Z.ltb_spec 0 (digitsValue pre - year)),
    (Z.ltb_spec year (digitsValue pre)); try reflexivity; lia.
Qed.

(** For an expiration year written in decimal digits, the years remaining
    held in a result are the year minus the calendar year, without
    rounding, and the year is after the calendar year. *)
Theorem years_remaining_exact (year : Z) (st : Component)
  (pre rest : string) (r : CalculationResult) :
  expirationYear (bondData st) = pre ++ rest -> yearText pre rest ->
  calendarYear year ->
  result (calculateCompoundRate Math_pow year st) = Some r ->
  yearsRemaining r = ofZ false (digitsValue pre - year)
  /\ year < digitsValue pre.
Proof.
  intros Hexp Htext Hyear Hr.
  destruct (yearText_years year _ pre rest Hexp Htext Hyear)
    as (Hyears & Hnan & _).
  destruct (calculate_some year st r Hr) as (_ & Hle & Hy & _).
  rewrite Hy, Hyears; split; [reflexivity | ].
  apply Z.ltb_lt.
  rewrite <- (yearText_positive year _ pre rest Hexp Htext Hyear).
  apply gtb_zero_leb; split; [ | exact Hle].
  rewrite Hyears; apply ofZ_not_NaN.
Qed.

(** For an expiration year written in decimal digits, a result is left
    if and only if each of the three decimal fields begins a decimal
    literal and the year is after the calendar year. *)
Theorem result_iff_year_after_current (year : Z) (st : Component)
  (pre rest : string) :
  expirationYear (bondData st) = pre ++ rest -> yearText pre rest ->
  calendarYear year ->
  ((exists r, result (calculateCompoundRate Math_pow year st) = Some r)
   <-> beginsDecimalLiteral (nominalValue (bondData st)) = true
       /\ beginsDecimalLiteral (currentValue (bondData st)) = true
       /\ beginsDecimalLiteral (yearlyInterestRate (bondData st)) = true
       /\ year < digitsValue pre).
Proof.
  intros Hexp Htext Hyear.
  destruct (yearText_years year _ pre rest Hexp Htext Hyear)
    as (Hyears & Hnan & _).
  pose proof (yearText_positive year _ pre rest Hexp Htext Hyear) as Hpos.
  assert (Hlit : forall s, isNaN (parseFloat s) = false
                           <-> beginsDecimalLiteral s = true).
  { intros s; rewrite parseFloat_NaN_iff.
    destruct (beginsDecimalLiteral s); simpl; intuition congruence. }
  split.
  - intros [r Hr].
    destruct (calculate_some year st r Hr) as ((Hn & Hc & _ & Hi) & Hle & _).
    repeat split; try (apply Hlit; assumption).
    apply Z.ltb_lt; rewrite <- Hpos.
    apply gtb_zero_leb; split; [ | exact Hle].
    rewrite Hyears; apply ofZ_not_NaN.
  - intros (Hn & Hc & Hi & Hlt).
    rewrite (calculate_present Math_pow year st); [eauto | | ].
    + repeat split; try (apply Hlit; assumption); exact Hnan.
    + rewrite Hpos; apply Z.ltb_lt, Hlt.
Qed.

(** Any result the calculation leaves holds a number of years greater
    than zero: the per-year interest on display never divides by a zero
    or by NaN. *)
Theorem held_years_positive (year : Z) (st : Component)
  (r : CalculationResult) :
  calendarYear year ->
  result (calculateCompoundRate Math_pow year st) = Some r ->
  gtb (yearsRemaining r) zero = true
  /\ isNaN (yearsRemaining r) = false /\ isZero (yearsRemaining r) = false.
Proof.
  intros Hyear Hr.
  destruct (calculate_some year st r Hr) as ((_ & _ & He & _) & Hle & Hy & _).
  assert (Hn : isNaN (yearsRemaining r) = false).
  { rewrite Hy; unfold yearsRemainingOf.
    now rewrite sub_finite_NaN by (apply calendarYear_finite, Hyear). }
  rewrite <- Hy in Hle.
  assert (Hgt : gtb (yearsRemaining r) zero = true)
    by (apply gtb_zero_leb; auto).
  repeat split; try assumption.
  destruct (yearsRemaining r); try reflexivity; discriminate.
Qed.

Lemma mul_finite_not_NaN (x y : number) :
  isFinite x = true -> isZero x = false -> isNaN y = false ->
  isNaN (mul x y) = false.
Proof.
  destruct x as [sx | sx | | sx mx ex], y as [sy | sy | | sy my ey];
    simpl; try discriminate; try reflexivity.
  intros _ _ _; apply binary_round_aux_signedAs; lia.
Qed.

Lemma mul_not_NaN_finite (x y : number) :
  isNaN x = false -> isFinite y = true -> isZero y = false ->
  isNaN (mul x y) = false.
Proof.
  destruct x as [sx | sx | | sx mx ex], y as [sy | sy | | sy my ey];
    simpl; try discriminate; try reflexivity.
  intros _ _ _; apply binary_round_aux_signedAs; lia.
Qed.

Lemma add_finite_NaN (x y : number) :
  isFinite y = true -> isNaN (add x y) = isNaN x.
Proof.
  destruct y as [sy | sy | | sy my ey]; try discriminate; intros _;
    destruct x as [sx | sx | | sx mx ex]; try reflexivity.
  - destruct sx, sy; reflexivity.
  - unfold add, SFadd; apply binary_normalize_not_NaN.
Qed.

(** With a finite nominal value other than zero and a finite number of
    years, the total interest and the total return of a result are never
    NaN, whatever the rate and the current value. *)
Theorem totals_not_NaN (year : Z) (st : Component) (r : CalculationResult) :
  result (calculateCompoundRate Math_pow year st) = Some r ->
  isFinite (nominalOf (bondData st)) = true ->
  isZero (nominalOf (bondData st)) = false ->
  isFinite (yearsRemaining r) = true ->
  isNaN (totalInterestPayments r) = false /\ isNaN (totalReturn r) = false.
Proof.
  intros Hr Hfin Hnz Hyfin.
  destruct (calculate_some year st r Hr)
    as ((_ & _ & _ & Hrate) & Hle & Hy & Ht & Hret & _).
  assert (Hyz : isZero (yearsRemaining r) = false).
  { rewrite <- Hy in Hle.
    destruct (yearsRemaining r); try reflexivity; discriminate. }
  assert (Hi : isNaN (totalInterestPayments r) = false).
  { rewrite Ht; apply mul_not_NaN_finite; try assumption.
    unfold annualInterestOf; apply mul_finite_not_NaN; try assumption.
    now rewrite div_hundred_NaN. }
  split; [exact Hi | ].
  now rewrite Hret, add_finite_NaN.
Qed.

Lemma sub_diag_finite (x : number) :
  isFinite x = true -> sub x x = zero.
Proof.
  destruct x as [s | s | | s m e]; try discriminate; intros _.
  - destruct s; reflexivity.
  - unfold sub, SFsub; rewrite Z.sub_diag; reflexivity.
Qed.

Lemma toFixed_zero (Number_toString : number -> string) (x : number) :
  isZero x = true -> toFixed Number_toString 2 x = "0.00".
Proof. destruct x; try discriminate; reflexivity. Qed.

(** With a rate of zero, a finite nominal value other than zero and a
    finite number of years: the total interest is a zero, printed 0.00;
    the per-year interest on display equals the annual interest; the
    total return is the nominal value itself; and the profit on display
    is the nominal value minus the current value, printed 0.00 when the
    two are equal. *)
Theorem zero_rate_returns_nominal
  (Number_toString : number -> string) (year : Z) (st : Component)
  (r : CalculationResult) :
  result (calculateCompoundRate Math_pow year st) = Some r ->
  isZero (ratePercentOf (bondData st)) = true ->
  isFinite (nominalOf (bondData st)) = true ->
  isZero (nominalOf (bondData st)) = false ->
  isFinite (yearsRemaining r) = true ->
  isZero (totalInterestPayments r) = true
  /\ totalInterestText Number_toString r = "0.00"
  /\ displayedAnnualInterest r = annualInterestOf (bondData st)
  /\ totalReturn r = nominalOf (bondData st)
  /\ displayedProfit (bondData st) r
     = sub (nominalOf (bondData st)) (currentOf (bondData st))
  /\ (currentOf (bondData st) = nominalOf (bondData st) ->
      profitText Number_toString (bondData st) r = "0.00").
Proof.
  intros Hr Hzero Hfin Hnz Hyfin.
  destruct (calculate_some year st r Hr) as (_ & Hle & Hy & Ht & Hret & _).
  rewrite <- Hy in Hle.
  assert (Hi : isZero (totalInterestPayments r) = true
               /\ displayedAnnualInterest r = annualInterestOf (bondData st)).
  { unfold displayedAnnualInterest; rewrite Ht; unfold annualInterestOf.
    destruct (nominalOf (bondData st)) as [s | s | | s m e];
      try discriminate.
    destruct (ratePercentOf (bondData st)) as [s' | s' | | s' m' e'];
      try discriminate.
    destruct (yearsRemaining r) as [sy | sy | | [ | ] my ey];
      try discriminate.
    split; [reflexivity | ].
    cbn; now rewrite !xorb_false_r. }
  destruct Hi as [Hi Hper].
  assert (Hn : totalReturn r = nominalOf (bondData st)).
  { rewrite Hret.
    destruct (totalInterestPayments r); try discriminate.
    destruct (nominalOf (bondData st)); try discriminate; reflexivity. }
  unfold totalInterestText, profitText, displayedProfit.
  rewrite Hn; fold (currentOf (bondData st)).
  repeat split; try assumption.
  - apply toFixed_zero, Hi.
  - intros ->; now rewrite (sub_diag_finite _ Hfin).
Qed.

(** [parseInt] on a minus sign and decimal digits. *)
Lemma parseInt_minus_digits (pre rest : string) :
  pre <> EmptyString -> allDigits pre = true ->
  startsWithDigit rest = false -> hexPrefix (pre ++ rest) = None ->
  parseInt (String "-" (pre ++ rest)) = ofZ true (- digitsValue pre).
Proof.
  intros Hne Hpre Hrest Hhex; unfold parseInt.
  cbn [trimStart]; change (isStrWhiteSpaceChar "-") with false.
  cbn [stripSign]; rewrite Ascii.eqb_refl.
  rewrite Hhex, (spanDigits_app pre rest Hpre Hrest).
  pose proof (spanDigits_digit pre (allDigits_start pre Hne Hpre)) as Hds.
  unfold digitsValue.
  destruct (fst (spanDigits 10 pre)) as [ | d ds]; [congruence | reflexivity].
Qed.

End MoreCalculatorFacts.

(** ** Input events *)

Section EventFacts.

Variable Math_pow : number -> number -> number.

Lemma inputEvent_bondData (year : Z) (field : BondField) (value : string)
  (st : Component) :
  bondData (inputEvent Math_pow year field value st)
  = spreadWith (bondData st) field value.
Proof. unfold inputEvent; now rewrite calculate_bondData. Qed.

(** Two states reached by input events agree as soon as their texts do. *)
Lemma inputEvent_ext (year : Z) (f g : BondField) (v w : string)
  (st1 st2 : Component) :
  spreadWith (bondData st1) f v = spreadWith (bondData st2) g w ->
  inputEvent Math_pow year f v st1 = inputEvent Math_pow year g w st2.
Proof.
  intros H; apply Component_ext.
  - now rewrite !inputEvent_bondData.
  - unfold inputEvent; apply calculate_result_ext; exact H.
Qed.

Lemma getField_spreadWith (b : BondData) (field other : BondField)
  (value : string) :
  getField (spreadWith b field value) other
  = if BondField_eqb other field then value else getField b other.
Proof. destruct field, other; reflexivity. Qed.

Lemma BondData_ext (b1 b2 : BondData) :
  (forall field, getField b1 field = getField b2 field) -> b1 = b2.
Proof.
  intros H; destruct b1, b2.
  pose proof (H NominalValue); pose proof (H CurrentValue).
  pose proof (H ExpirationYear); pose proof (H YearlyInterestRate).
  simpl in *; congruence.
Qed.

(** An input event with a text that does not begin a number, the empty
    text among them, clears the result, whatever was held and whatever
    the other fields hold. *)
Theorem input_without_number_clears_result (year : Z) (field : BondField)
  (value : string) (st : Component) :
  beginsNumber field value = false ->
  result (inputEvent Math_pow year field value st) = None.
Proof.
  intros Hb; unfold inputEvent; rewrite calculate_result; cbv zeta.
  replace (_ || _ || _ || _)%bool with true; [reflexivity | ].
  unfold nominalOf, currentOf, expYearOf, ratePercentOf.
  destruct field; simpl in *.
  - rewrite (parseFloat_no_literal _ Hb); reflexivity.
  - rewrite (parseFloat_no_literal _ Hb); simpl; now rewrite orb_true_r.
  - rewrite (parseInt_no_digit _ Hb); simpl; now rewrite !orb_true_r.
  - rewrite (parseFloat_no_literal _ Hb); simpl; now rewrite !orb_true_r.
Qed.

(** Input events on two different fields commute: the state, result
    included, does not depend on which field was typed first. *)
Theorem input_events_commute (year : Z) (f g : BondField) (v w : string)
  (st : Component) :
  f <> g ->
  inputEvent Math_pow year f v (inputEvent Math_pow year g w st)
  = inputEvent Math_pow year g w (inputEvent Math_pow year f v st).
Proof.
  intros Hfg; apply inputEvent_ext; rewrite !inputEvent_bondData.
  destruct f, g; try congruence; reflexivity.
Qed.

(** Of two input events on the same field, only the later one counts. *)
Theorem input_event_overwrites (year : Z) (field : BondField)
  (v w : string) (st : Component) :
  inputEvent Math_pow year field v (inputEvent Math_pow year field w st)
  = inputEvent Math_pow year field v st.
Proof.
  apply inputEvent_ext; rewrite inputEvent_bondData.
  destruct field; reflexivity.
Qed.

Lemma runEvents_getField (year : Z) (events : list (BondField * string))
  (st : Component) (field : BondField) :
  getField (bondData (runEvents Math_pow year events st)) field
  = lastText field events (getField (bondData st) field).
Proof.
  revert st; induction events as [ | [f v] events IH]; intros st;
    [reflexivity | ].
  cbn [runEvents fold_left lastText fst snd].
  fold (runEvents Math_pow year events (inputEvent Math_pow year f v st)).
  rewrite IH, inputEvent_bondData, getField_spreadWith.
  destruct f, field; reflexivity.
Qed.

Lemma runEvents_app (year : Z) (events later : list (BondField * string))
  (st : Component) :
  runEvents Math_pow year (events ++ later) st
  = runEvents Math_pow year later (runEvents Math_pow year events st).
Proof. unfold runEvents; apply fold_left_app. Qed.

(** A run of at least one event ends with a calculation. *)
Lemma runEvents_last (year : Z) (events : list (BondField * string))
  (st : Component) :
  events <> [] ->
  exists st',
    runEvents Math_pow year events st
    = calculateCompoundRate Math_pow year st'.
Proof.
  intros Hne; destruct (exists_last Hne) as (earlier & [f v] & ->).
  rewrite runEvents_app; cbn [runEvents fold_left fst snd].
  unfold inputEvent; eauto.
Qed.

(** After a run of at least one input event the held result is the one
    the calculation gives for the held texts: it is never stale, and
    running the calculation again changes nothing. *)
Theorem runEvents_in_sync (year : Z) (events : list (BondField * string))
  (st : Component) :
  events <> [] ->
  calculateCompoundRate Math_pow year (runEvents Math_pow year events st)
  = runEvents Math_pow year events st.
Proof.
  intros Hne; destruct (runEvents_last year events st Hne) as [st' ->].
  apply calculation_idempotent.
Qed.

(** The state after a run of at least one input event: each field holds
    the text of the last event on it (its earlier text when the run has
    none), and the result is the calculation on these four texts.  The
    texts typed on the way and the result held before leave no trace. *)
Theorem runEvents_state (year : Z) (events : list (BondField * string))
  (st : Component) :
  events <> [] ->
  runEvents Math_pow year events st
  = calculateCompoundRate Math_pow year (setBondData (lastTexts events) st).
Proof.
  intros Hne.
  assert (Hb : bondData (runEvents Math_pow year events st)
               = lastTexts events (bondData st)).
  { apply BondData_ext; intros field; rewrite runEvents_getField.
    destruct field; reflexivity. }
  destruct (runEvents_last year events st Hne) as [st' Hst'].
  rewrite Hst' in *; rewrite calculate_bondData in Hb.
  apply Component_ext.
  - now rewrite !calculate_bondData.
  - apply calculate_result_ext; exact Hb.
Qed.

(** Leading white space in a field changes nothing in the result. *)
Theorem leading_white_space_ignored (year : Z) (field : BondField)
  (ws value : string) (st : Component) :
  allWhiteSpace ws = true ->
  result (inputEvent Math_pow year field (ws ++ value) st)
  = result (inputEvent Math_pow year field value st).
Proof.
  intros Hws; unfold inputEvent; rewrite !calculate_result; cbv zeta.
  unfold yearsRemainingOf, annualInterestOf, nominalOf, currentOf,
    expYearOf, ratePercentOf, handleInputChange, setBondData.
  destruct field; simpl;
    rewrite ?(parseFloat_white_space ws value Hws),
      ?(parseInt_white_space ws value Hws); reflexivity.
Qed.

(** In the three decimal fields, text after a plain decimal number (a
    currency name or a percent sign, say) changes nothing in the
    result. *)
Theorem text_after_decimal_ignored (year : Z) (field : BondField)
  (pre tail rest : string) (st : Component) :
  field <> ExpirationYear ->
  pre <> EmptyString -> allDigits pre = true ->
  isFractionTail tail = true -> endsLiteral rest = true ->
  result (inputEvent Math_pow year field (pre ++ tail ++ rest) st)
  = result (inputEvent Math_pow year field (pre ++ tail) st).
Proof.
  intros Hfield Hne Hpre Htail Hrest.
  pose proof (parseFloat_trailing pre tail rest Hne Hpre Htail Hrest) as Hp.
  unfold inputEvent; rewrite !calculate_result; cbv zeta.
  unfold yearsRemainingOf, annualInterestOf, nominalOf, currentOf,
    expYearOf, ratePercentOf, handleInputChange, setBondData.
  destruct field; try congruence; simpl; rewrite Hp; reflexivity.
Qed.

End EventFacts.

(** ** Amounts on display *)

Section FormattingFacts.

Lemma length_append (a b : string) :
  String.length (a ++ b) = (String.length a + String.length b)%nat.
Proof. induction a as [ | c a IH]; simpl; congruence. Qed.

Lemma allDigits_append (a b : string) :
  allDigits (a ++ b) = allDigits a && allDigits b.
Proof.
  induction a as [ | c a IH]; simpl; [reflexivity | ].
  now rewrite IH, andb_assoc.
Qed.

Lemma digitChar_value (d : Z) :
  0 <= d <= 9 -> digitValue 10 (digitChar d) = Some d.
Proof.
  intros Hd.
  assert (H : d = 0 \/ d = 1 \/ d = 2 \/ d = 3 \/ d = 4 \/ d = 5 \/ d = 6
              \/ d = 7 \/ d = 8 \/ d = 9) by lia.
  repeat (destruct H as [-> | H]; [reflexivity | ]); subst; reflexivity.
Qed.

Lemma digitChar_digit (d : Z) :
  0 <= d <= 9 -> isDecimalDigit (digitChar d) = true.
Proof.
  intros Hd; unfold isDecimalDigit; now rewrite (digitChar_value d Hd).
Qed.

Lemma decimalDigits_allDigits (fuel : nat) (n : Z) :
  0 <= n -> allDigits (decimalDigits fuel n) = true.
Proof.
  revert n; induction fuel as [ | fuel IH]; intros n Hn; simpl;
    [reflexivity | ].
  destruct (Z.ltb_spec n 10).
  - simpl; rewrite digitChar_digit by lia; reflexivity.
  - rewrite allDigits_append, IH by (apply Z.div_pos; lia); simpl.
    rewrite digitChar_digit; [reflexivity | ].
    pose proof (Z.mod_pos_bound n 10); lia.
Qed.

Lemma decimalDigits_not_empty (fuel : nat) (n : Z) :
  decimalDigits (S fuel) n <> EmptyString.
Proof.
  simpl; destruct (n <? 10); [discriminate | ].
  destruct (decimalDigits fuel (n / 10)); discriminate.
Qed.

(** The digits of a text that ends with one more digit. *)
Lemma spanDigits_snoc (s : string) (d : Z) :
  allDigits s = true -> 0 <= d <= 9 ->
  fst (spanDigits 10 (s ++ String (digitChar d) EmptyString))
  = (fst (spanDigits 10 s) ++ [d])%list.
Proof.
  intros Hs Hd; induction s as [ | c s IH]; simpl in *.
  - now rewrite (digitChar_value d Hd).
  - apply andb_prop in Hs as [Hc Hs]; unfold isDecimalDigit in Hc.
    destruct (digitValue 10 c); [ | discriminate].
    specialize (IH Hs).
    destruct (spanDigits 10 (s ++ _)), (spanDigits 10 s); simpl in *.
    now rewrite IH.
Qed.

Lemma digitsValue_snoc (s : string) (d : Z) :
  allDigits s = true -> 0 <= d <= 9 ->
  digitsValue (s ++ String (digitChar d) EmptyString)
  = digitsValue s * 10 + d.
Proof.
  intros Hs Hd; unfold digitsValue, mathValue.
  now rewrite (spanDigits_snoc s d Hs Hd), fold_left_app.
Qed.

(** Reading back the digits of a number gives the number. *)
Lemma decimalDigits_value (fuel : nat) (n : Z) :
  0 <= n < 10 ^ Z.of_nat fuel -> digitsValue (decimalDigits fuel n) = n.
Proof.
  revert n; induction fuel as [ | fuel IH]; intros n Hn.
  - simpl in Hn; assert (n = 0) by lia; subst; reflexivity.
  - simpl decimalDigits; destruct (Z.ltb_spec n 10).
    + unfold digitsValue; cbn [spanDigits].
      rewrite (digitChar_value n) by lia.
      unfold mathValue; cbn [fst fold_left]; lia.
    + rewrite Nat2Z.inj_succ, Z.pow_succ_r in Hn by lia.
      pose proof (Z.mod_pos_bound n 10 ltac:(lia)) as Hmod.
      pose proof (Z.div_mod n 10 ltac:(lia)) as Hdiv.
      assert (Hq : 0 <= n / 10 < 10 ^ Z.of_nat fuel).
      { split; [apply Z.div_pos; lia | ].
        apply Z.div_lt_upper_bound; lia. }
      rewrite digitsValue_snoc, (IH _ Hq);
        [lia | apply decimalDigits_allDigits; lia | lia].
Qed.

Lemma decimalString_value (n : Z) :
  0 <= n -> digitsValue (decimalString n) = n.
Proof.
  intros Hn; unfold decimalString; apply decimalDigits_value.
  split; [exact Hn | ].
  destruct (Z.eq_dec n 0) as [-> | Hn0]; [reflexivity | ].
  rewrite Nat2Z.inj_succ, Z2Nat.id by apply Z.log2_nonneg.
  pose proof (Z.log2_spec n ltac:(lia)) as [_ Hlt].
  assert (2 ^ Z.succ (Z.log2 n) <= 10 ^ Z.succ (Z.log2 n)).
  { apply Z.pow_le_mono_l; pose proof (Z.log2_nonneg n); lia. }
  lia.
Qed.

Lemma zeros_allDigits (k : nat) : allDigits (zeros k) = true.
Proof. induction k; simpl; auto. Qed.

Lemma zeros_length (k : nat) : String.length (zeros k) = k.
Proof. induction k; simpl; congruence. Qed.

Lemma digitsValue_zeros (k : nat) (s : string) :
  digitsValue (zeros k ++ s) = digitsValue s.
Proof.
  induction k as [ | k IH]; [reflexivity | ].
  unfold digitsValue, mathValue in *; simpl.
  destruct (spanDigits 10 (zeros k ++ s)); simpl in *; exact IH.
Qed.

Lemma splitAt_spec (k : nat) (s : string) :
  (k <= String.length s)%nat ->
  fst (splitAt k s) ++ snd (splitAt k s) = s
  /\ String.length (fst (splitAt k s)) = k.
Proof.
  revert s; induction k as [ | k IH]; intros s Hk.
  - destruct s; split; reflexivity.
  - destruct s as [ | c s]; simpl in *; [lia | ].
    destruct (IH s ltac:(lia)) as [Happ Hlen].
    destruct (splitAt k s) as [a b]; simpl in *.
    split; congruence.
Qed.

(** The text of [n / 10^f], for [f] of at least one: digits, a point and
    [f] digits, which read together give back [n]. *)
Lemma fixedText_shape (f : nat) (n : Z) :
  (0 < f)%nat -> 0 <= n ->
  exists a b,
    fixedText f n = a ++ String "." b
    /\ a <> EmptyString /\ allDigits a = true
    /\ allDigits b = true /\ String.length b = f
    /\ digitsValue (a ++ b) = n.
Proof.
  intros Hf Hn; unfold fixedText.
  destruct f as [ | f]; [lia | ].
  set (digits := decimalString n).
  set (padded := if (String.length digits <=? S f)%nat
                 then zeros (S f + 1 - String.length digits) ++ digits
                 else digits).
  assert (Hdigits : allDigits digits = true)
    by (apply decimalDigits_allDigits, Hn).
  assert (Hp : allDigits padded = true /\ digitsValue padded = n
               /\ (S f < String.length padded)%nat).
  { subst padded; destruct (Nat.leb_spec (String.length digits) (S f)).
    - rewrite allDigits_append, zeros_allDigits, digitsValue_zeros.
      rewrite length_append, zeros_length.
      split; [exact Hdigits | split; [apply decimalString_value, Hn | lia]].
    - split; [exact Hdigits | split; [apply decimalString_value, Hn | lia]]. }
  destruct Hp as (Hall & Hval & Hlen).
  destruct (splitAt_spec (String.length padded - S f) padded ltac:(lia))
    as [Happ Hla].
  destruct (splitAt (String.length padded - S f) padded) as [a b].
  simpl in Happ, Hla.
  exists a, b; rewrite Happ.
  rewrite <- Happ, allDigits_append in Hall.
  apply andb_prop in Hall as [Ha Hb].
  assert (Hlb : String.length b = S f).
  { rewrite <- Happ, length_append in Hla, Hlen; lia. }
  repeat split; auto.
  intros ->; simpl in Hla; lia.
Qed.

Lemma scaledHalfUp_nonneg (f : nat) (m : positive) (e : Z) :
  0 <= scaledHalfUp f m e.
Proof.
  unfold scaledHalfUp.
  assert (0 < 10 ^ Z.of_nat f) by (apply Z.pow_pos_nonneg; lia).
  destruct e as [ | k | k].
  - rewrite Z.pow_0_r; lia.
  - assert (0 < 2 ^ Zpos k) by (apply Z.pow_pos_nonneg; lia); nia.
  - assert (0 < 2 ^ Zpos k) by (apply Z.pow_pos_nonneg; lia).
    apply Z.div_pos; nia.
Qed.

(** [scaledHalfUp f m e] is the integer nearest to [m * 2^e * 10^f],
    the larger one when two are as near: with the value written as the
    fraction [p / q], [n - 1/2 <= p / q < n + 1/2]. *)
Lemma scaledHalfUp_nearest (f : nat) (m : positive) (e : Z) :
  let p := Zpos m * 10 ^ Z.of_nat f * 2 ^ Z.max 0 e in
  let q := 2 ^ Z.max 0 (- e) in
  let n := scaledHalfUp f m e in
  2 * q * n - q <= 2 * p < 2 * q * n + q.
Proof.
  cbv zeta; unfold scaledHalfUp.
  destruct e as [ | k | k].
  - simpl Z.max; rewrite !Z.pow_0_r; lia.
  - replace (Z.max 0 (- Zpos k)) with 0 by lia.
    replace (Z.max 0 (Zpos k)) with (Zpos k) by lia.
    rewrite Z.pow_0_r; lia.
  - replace (Z.max 0 (- Zneg k)) with (Zpos k) by lia.
    replace (Z.max 0 (Zneg k)) with 0 by lia.
    rewrite Z.pow_0_r, Z.mul_1_r.
    assert (Hq : 0 < 2 ^ Zpos k) by (apply Z.pow_pos_nonneg; lia).
    set (q := 2 ^ Zpos k) in *; set (s := Zpos m * 10 ^ Z.of_nat f).
    pose proof (Z.div_mod (2 * s + q) (2 * q) ltac:(lia)) as Hdiv.
    pose proof (Z.mod_pos_bound (2 * s + q) (2 * q) ltac:(lia)) as Hmod.
    lia.
Qed.

Lemma spanDigits_all (s : string) :
  allDigits s = true ->
  List.length (fst (spanDigits 10 s)) = String.length s.
Proof.
  induction s as [ | c s IH]; simpl; [reflexivity | ].
  intros H; apply andb_prop in H as [Hc Hs]; unfold isDecimalDigit in Hc.
  destruct (digitValue 10 c); [ | discriminate].
  specialize (IH Hs); destruct (spanDigits 10 s); simpl in *; congruence.
Qed.

Lemma spanDigits_concat (a b : string) :
  allDigits a = true ->
  fst (spanDigits 10 (a ++ b))
  = (fst (spanDigits 10 a) ++ fst (spanDigits 10 b))%list.
Proof.
  intros Ha; induction a as [ | c a IH]; simpl in *; [reflexivity | ].
  apply andb_prop in Ha as [Hc Ha]; unfold isDecimalDigit in Hc.
  destruct (digitValue 10 c); [ | discriminate].
  specialize (IH Ha).
  destruct (spanDigits 10 (a ++ b)), (spanDigits 10 a); simpl in *.
  now rewrite IH.
Qed.

(** What [parseFloat] reads in an optional minus sign, digits, a point
    and digits. *)
Lemma parseFloat_fixed (s : bool) (a b : string) :
  a <> EmptyString -> allDigits a = true -> allDigits b = true ->
  parseFloat ((if s then "-" else EmptyString) ++ a ++ String "." b)
  = ofDecimal s (digitsValue (a ++ b)) (- Z.of_nat (String.length b)).
Proof.
  intros Hne Ha Hb.
  pose proof (allDigits_starts a (String "." b) Hne Ha) as Hstart.
  assert (Hsign : stripSign (trimStart
                    ((if s then "-" else EmptyString) ++ a ++ String "." b))
                  = (s, a ++ String "." b)).
  { destruct s; [ | apply digit_start_untouched, Hstart].
    cbn [append trimStart]; change (isStrWhiteSpaceChar "-") with false.
    cbn [stripSign]; now rewrite Ascii.eqb_refl. }
  unfold parseFloat; rewrite Hsign.
  assert (Hinf : String.prefix "Infinity" (a ++ String "." b) = false).
  { destruct a as [ | c a]; [congruence | ].
    simpl in Ha; apply andb_prop in Ha as [Hc _].
    cbn [append String.prefix].
    destruct (ascii_dec "I" c) as [<- | Hn];
      [vm_compute in Hc; discriminate | reflexivity]. }
  rewrite Hinf, (spanDigits_app a (String "." b) Ha eq_refl).
  cbn [fractionPart]; rewrite Ascii.eqb_refl.
  pose proof (spanDigits_app b EmptyString Hb eq_refl) as Hspan.
  rewrite append_empty in Hspan; rewrite Hspan.
  cbn [exponentPart]; rewrite (spanDigits_all b Hb).
  unfold digitsValue; rewrite (spanDigits_concat a b Ha).
  pose proof (spanDigits_digit a (allDigits_start a Hne Ha)) as Hds.
  destruct (fst (spanDigits 10 a)) as [ | d ds]; [congruence | reflexivity].
Qed.

End FormattingFacts.

(** ** Further runs on concrete inputs *)

Lemma years_remaining_exact_witness :
  exists r,
    result (calculateCompoundRate powSample 2026
              (holding (bond "1000" "900" "2031.5" "2.5"))) = Some r
    /\ yearsRemaining r = ofZ false (digitsValue "2031" - 2026)
    /\ 2026 < digitsValue "2031".
Proof.
  eexists; split; [vm_compute; reflexivity | ].
  apply (years_remaining_exact powSample 2026
           (holding (bond "1000" "900" "2031.5" "2.5")) "2031" ".5").
  - reflexivity.
  - repeat split; try reflexivity; [discriminate | simpl; lia].
  - unfold calendarYear; lia.
  - vm_compute; reflexivity.
Defined.

Lemma result_iff_year_after_current_witness :
  (exists r,
      result (calculateCompoundRate powSample 2026
                (holding (bond "1000" "900" "2031.5" "2.5"))) = Some r)
  <-> beginsDecimalLiteral "1000" = true
      /\ beginsDecimalLiteral "900" = true
      /\ beginsDecimalLiteral "2.5" = true
      /\ 2026 < digitsValue "2031".
Proof.
  apply (result_iff_year_after_current powSample 2026
           (holding (bond "1000" "900" "2031.5" "2.5")) "2031" ".5").
  - reflexivity.
  - repeat split; try reflexivity; [discriminate | simpl; lia].
  - unfold calendarYear; lia.
Defined.

Lemma held_years_positive_witness :
  exists r,
    result (calculateCompoundRate powSample 2026
              (holding (bond "1000" "900" "2031" "2.5"))) = Some r
    /\ gtb (yearsRemaining r) zero = true
    /\ isNaN (yearsRemaining r) = false /\ isZero (yearsRemaining r) = false.
Proof.
  eexists; split; [vm_compute; reflexivity | ].
  apply (held_years_positive powSample 2026
           (holding (bond "1000" "900" "2031" "2.5"))).
  - unfold calendarYear; lia.
  - vm_compute; reflexivity.
Defined.

Lemma totals_not_NaN_witness :
  exists r,
    result (calculateCompoundRate powSample 2026
              (holding (bond "1000" "0" "2031" "Infinity"))) = Some r
    /\ isNaN (totalInterestPayments r) = false
    /\ isNaN (totalReturn r) = false.
Proof.
  eexists; split; [vm_compute; reflexivity | ].
  apply (totals_not_NaN powSample 2026
           (holding (bond "1000" "0" "2031" "Infinity")));
    vm_compute; reflexivity.
Defined.

Lemma zero_rate_returns_nominal_witness :
  exists r,
    result (calculateCompoundRate powSample 2026
              (holding (bond "1000" "1000" "2027" "0"))) = Some r
    /\ isZero (totalInterestPayments r) = true
    /\ totalInterestText toStringSample r = "0.00"
    /\ displayedAnnualInterest r
       = annualInterestOf (bond "1000" "1000" "2027" "0")
    /\ totalReturn r = parseFloat "1000"
    /\ displayedProfit (bond "1000" "1000" "2027" "0") r
       = sub (parseFloat "1000") (parseFloat "1000")
    /\ (parseFloat "1000" = parseFloat "1000" ->
        profitText toStringSample (bond "1000" "1000" "2027" "0") r = "0.00").
Proof.
  eexists; split; [vm_compute; reflexivity | ].
  apply (zero_rate_returns_nominal powSample toStringSample 2026
           (holding (bond "1000" "1000" "2027" "0")));
    vm_compute; reflexivity.
Defined.

Lemma input_without_number_clears_result_witness :
  result (inputEvent powSample 2026 CurrentValue EmptyString
            (calculateCompoundRate powSample 2026
               (holding (bond "1000" "900" "2031" "2.5")))) = None.
Proof.
  apply (input_without_number_clears_result powSample 2026 CurrentValue
           EmptyString).
  reflexivity.
Defined.

Lemma input_events_commute_witness :
  inputEvent powSample 2026 NominalValue "1000"
    (inputEvent powSample 2026 ExpirationYear "2031" initialComponent)
  = inputEvent powSample 2026 ExpirationYear "2031"
      (inputEvent powSample 2026 NominalValue "1000" initialComponent).
Proof.
  apply (input_events_commute powSample 2026 NominalValue ExpirationYear).
  discriminate.
Defined.

Lemma runEvents_in_sync_witness :
  calculateCompoundRate powSample 2026
    (runEvents powSample 2026
       [(NominalValue, "1000"); (CurrentValue, "900");
        (ExpirationYear, "2031"); (YearlyInterestRate, "2.5")]
       initialComponent)
  = runEvents powSample 2026
      [(NominalValue, "1000"); (CurrentValue, "900");
       (ExpirationYear, "2031"); (YearlyInterestRate, "2.5")]
      initialComponent.
Proof.
  apply (runEvents_in_sync powSample 2026); discriminate.
Defined.

Lemma runEvents_state_witness :
  runEvents powSample 2026
    [(NominalValue, "1"); (CurrentValue, "900"); (NominalValue, "1000");
     (ExpirationYear, "2031"); (YearlyInterestRate, "2.5")]
    initialComponent
  = calculateCompoundRate powSample 2026
      (setBondData
         (lastTexts
            [(NominalValue, "1"); (CurrentValue, "900");
             (NominalValue, "1000"); (ExpirationYear, "2031");
             (YearlyInterestRate, "2.5")])
         initialComponent).
Proof.
  apply (runEvents_state powSample 2026); discriminate.
Defined.

Lemma leading_white_space_ignored_witness :
  result (inputEvent powSample 2026 NominalValue ("  " ++ "1000")
            (holding (bond EmptyString "900" "2031" "2.5")))
  = result (inputEvent powSample 2026 NominalValue "1000"
              (holding (bond EmptyString "900" "2031" "2.5"))).
Proof.
  apply (leading_white_space_ignored powSample 2026 NominalValue "  ").
  reflexivity.
Defined.

Lemma text_after_decimal_ignored_witness :
  result (inputEvent powSample 2026 YearlyInterestRate ("2" ++ ".5" ++ "%")
            (holding (bond "1000" "900" "2031" EmptyString)))
  = result (inputEvent powSample 2026 YearlyInterestRate ("2" ++ ".5")
              (holding (bond "1000" "900" "2031" EmptyString))).
Proof.
  apply (text_after_decimal_ignored powSample 2026 YearlyInterestRate
           "2" ".5" "%").
  - discriminate.
  - discriminate.
  - reflexivity.
  - reflexivity.
  - reflexivity.
Defined.

(** The amounts of the first scenario, as printed. *)
Example scenario_five_years_texts :
  exists r,
    result (calculateCompoundRate powSample 2026
              (holding (bond "1000" "900" "2031" "2.5"))) = Some r
    /\ totalInterestText toStringSample r = "125.00"
    /\ totalReturnText toStringSample r = "1125.00"
    /\ annualInterestText toStringSample r = "25.00"
    /\ profitText toStringSample (bond "1000" "900" "2031" "2.5") r
       = "225.00".
Proof. eexists; split; [vm_compute; reflexivity | ]; repeat split. Qed.

Example toFixed_rounds_half_up :
  toFixed toStringSample 2 (parseFloat "-8.345") = "-8.35"
  /\ toFixed toStringSample 2 (parseFloat "1.005") = "1.00"
  /\ toFixed toStringSample 2 (parseFloat "-0.001") = "-0.00"
  /\ toFixed toStringSample 4 (parseFloat "1.04604") = "1.0460".
Proof. repeat split. Qed.

(** ** Signs, prefixes and prices *)

Section SignsAndPrefixes.

Variable Math_pow : number -> number -> number.



Lemma ltb_zero_sign (x : number) : ltb x zero = true -> signBit x = true.
Proof.
  destruct x as [sx | sx | | sx mx ex]; try destruct sx;
    unfold ltb, SFltb; simpl; congruence.
Qed.

Lemma negative_not_zero_ltb (x : number) :
  signedAs true x -> isZero x = false -> ltb x zero = true.
Proof.
  intros [Hn Hs]; destruct x as [sx | sx | | sx mx ex]; simpl in *;
    try discriminate; subst; reflexivity.
Qed.

(** C10.  When the four fields parse and [yearsRemaining > 0], no sign is
    tested: whatever the signs of the nominal value, of the current
    value and of the interest rate, the result is the record the
    formulas give from these numbers as they are.  For a finite nominal
    value other than zero and a finite [yearsRemaining], the total
    interest is not NaN and carries the sign of nominal value times
    interest rate; so for a positive nominal value and a negative rate it
    is negative, or a negative zero when the product underflows. *)
Theorem negative_values_accepted (year : Z) (st : Component) :
  allParsed (bondData st) ->
  gtb (yearsRemainingOf year (bondData st)) zero = true ->
  let b := bondData st in
  let years := yearsRemainingOf year b in
  let interest := mul (mul (nominalOf b) (div (ratePercentOf b) hundred))
                    years in
  let total := add interest (nominalOf b) in
  result (calculateCompoundRate Math_pow year st)
  = Some {| compoundRate :=
              Math_pow (div total (currentOf b)) (div one years);
            totalInterestPayments := interest;
            totalReturn := total;
            yearsRemaining := years |}
  /\ (isFinite (nominalOf b) = true -> isZero (nominalOf b) = false ->
      isFinite years = true ->
      isNaN interest = false
      /\ signBit interest
         = xorb (signBit (nominalOf b)) (signBit (ratePercentOf b))
      /\ (gtb (nominalOf b) zero = true ->
          ltb (ratePercentOf b) zero = true ->
          leb interest zero = true
          /\ (isZero interest = false -> ltb interest zero = true))).
Proof.
  intros Hp Hy; cbv zeta.
  split; [exact (calculate_present Math_pow year st Hp Hy) | ].
  intros Hfin Hnz Hyfin.
  destruct Hp as (_ & _ & _ & Hrate).
  assert (Hyz : isZero (yearsRemainingOf year (bondData st)) = false).
  { apply gtb_zero_leb in Hy as [_ Hle].
    destruct (yearsRemainingOf year (bondData st)); try reflexivity;
      discriminate. }
  set (annual := mul (nominalOf (bondData st))
                     (div (ratePercentOf (bondData st)) hundred)).
  assert (Hd : isNaN (div (ratePercentOf (bondData st)) hundred) = false)
    by now rewrite div_hundred_NaN.
  assert (Ha : isNaN annual = false)
    by (apply mul_finite_not_NaN; assumption).
  assert (Hi : isNaN (mul annual (yearsRemainingOf year (bondData st)))
               = false)
    by (apply mul_not_NaN_finite; assumption).
  assert (Hs : signBit (mul annual (yearsRemainingOf year (bondData st)))
               = xorb (signBit (nominalOf (bondData st)))
                      (signBit (ratePercentOf (bondData st)))).
  { rewrite (mul_sign _ _ Hi), (gtb_zero_sign _ Hy), xorb_false_r.
    subst annual; rewrite (mul_sign _ _ Ha), (div_sign _ _ Hd).
    simpl; now rewrite xorb_false_r. }
  split; [exact Hi | split; [exact Hs | ]].
  intros Hpos Hneg.
  rewrite (gtb_zero_sign _ Hpos), (ltb_zero_sign _ Hneg) in Hs; simpl in Hs.
  split; [apply negative_leb_zero | intros Hz; apply negative_not_zero_ltb];
    try split; assumption.
Qed.

Lemma parseInt_plus_digits (pre rest : string) :
  pre <> EmptyString -> allDigits pre = true ->
  startsWithDigit rest = false -> hexPrefix (pre ++ rest) = None ->
  parseInt (String "+" (pre ++ rest)) = ofZ false (digitsValue pre).
Proof.
  intros Hne Hpre Hrest Hhex; unfold parseInt.
  cbn [trimStart]; change (isStrWhiteSpaceChar "+") with false.
  cbn [stripSign]; change (Ascii.eqb "+" "-") with false.
  rewrite Ascii.eqb_refl.
  rewrite Hhex, (spanDigits_app pre rest Hpre Hrest).
  pose proof (spanDigits_digit pre (allDigits_start pre Hne Hpre)) as Hds.
  unfold digitsValue.
  destruct (fst (spanDigits 10 pre)) as [ | d ds]; [congruence | reflexivity].
Qed.

(** [parseInt] on white space, an optional sign, decimal digits that are
    not marked as hexadecimal, and a rest that does not go on with a
    digit: the value of the digits, negated after a minus sign. *)
Lemma parseInt_signed_digits (ws : string) (mark : SignMark)
  (pre rest : string) :
  allWhiteSpace ws = true ->
  pre <> EmptyString -> allDigits pre = true ->
  startsWithDigit rest = false -> hexPrefix (pre ++ rest) = None ->
  parseInt (ws ++ signText mark ++ pre ++ rest)
  = ofZ (isMinus mark) (cond_Zopp (isMinus mark) (digitsValue pre)).
Proof.
  intros Hws Hne Hpre Hrest Hhex.
  rewrite (parseInt_white_space ws _ Hws).
  destruct mark; cbn [signText isMinus append cond_Zopp].
  - apply parseInt_digits; assumption.
  - apply parseInt_plus_digits; assumption.
  - apply parseInt_minus_digits; assumption.
Qed.

(** C9, as amended.  When the expiration year is made of optional leading
    white space, an optional sign, decimal digits that do not begin with
    0x or 0X, and then any text that does not start with a digit (a
    decimal part such as .9, say), [parseInt] reads the digits and drops
    the rest instead of rejecting the text: the year is the value of the
    digits, negated after a minus sign, and the calculation gives what
    it gives when the field holds the sign and the digits alone.  A
    result it leaves holds [yearsRemaining] as that year minus the
    current year, and totals and rate computed from it and from the other
    three fields as [parseFloat] reads them. *)
Theorem year_decimal_prefix_truncated (year : Z) (st : Component)
  (ws : string) (mark : SignMark) (pre rest : string) :
  allWhiteSpace ws = true ->
  pre <> EmptyString -> allDigits pre = true ->
  startsWithDigit rest = false ->
  hexPrefix (pre ++ rest) = None ->
  let text := ws ++ signText mark ++ pre ++ rest in
  let truncated :=
    ofZ (isMinus mark) (cond_Zopp (isMinus mark) (digitsValue pre)) in
  let nominal := parseFloat (nominalValue (bondData st)) in
  let current := parseFloat (currentValue (bondData st)) in
  let rate := div (parseFloat (yearlyInterestRate (bondData st))) hundred in
  let years := sub truncated (ofZ false year) in
  let interest := mul (mul nominal rate) years in
  let total := add interest nominal in
  parseInt text = truncated
  /\ result (inputEvent Math_pow year ExpirationYear text st)
     = result (inputEvent Math_pow year ExpirationYear
                 (signText mark ++ pre) st)
  /\ forall r,
      result (inputEvent Math_pow year ExpirationYear text st) = Some r ->
      r = {| compoundRate := Math_pow (div total current) (div one years);
             totalInterestPayments := interest;
             totalReturn := total;
             yearsRemaining := years |}.
Proof.
  intros Hws Hne Hpre Hrest Hhex; cbv zeta.
  pose proof (parseInt_signed_digits ws mark pre rest Hws Hne Hpre Hrest Hhex)
    as Hint.
  assert (Halone : parseInt (signText mark ++ pre)
                   = ofZ (isMinus mark)
                       (cond_Zopp (isMinus mark) (digitsValue pre))).
  { pose proof (parseInt_signed_digits EmptyString mark pre EmptyString
                  eq_refl Hne Hpre eq_refl) as H.
    rewrite append_empty in H; apply H.
    apply allDigits_no_hexPrefix, Hpre. }
  split; [exact Hint | ].
  unfold inputEvent; rewrite !calculate_result; cbv zeta.
  unfold yearsRemainingOf, annualInterestOf, nominalOf, currentOf, expYearOf,
    ratePercentOf, handleInputChange, setBondData; simpl.
  rewrite Hint, Halone; split; [reflexivity | ].
  intros r.
  destruct (_ || _ || _ || _)%bool; [discriminate | ].
  destruct (leb _ zero); [discriminate | ].
  intros [= <-]; reflexivity.
Qed.

(** A number with the minus sign, less a number without it. *)
Lemma sub_negative_nonnegative (x y : number) :
  signedAs true x -> signedAs false y -> leb (sub x y) zero = true.
Proof.
  intros [Hx Hsx] [Hy Hsy].
  destruct x as [sx | sx | | sx mx ex], y as [sy | sy | | sy my ey];
    simpl in *; try discriminate; subst; try reflexivity.
  unfold sub, SFsub; cbn [cond_Zopp].
  destruct (shl_align mx ex (Z.min ex ey)) as [a ea].
  destruct (shl_align my ey (Z.min ex ey)) as [c ec]; cbn [fst].
  change (- Zpos a - Zpos c) with (Zneg (a + c)).
  apply negative_leb_zero, binary_round_signedAs.
Qed.

(** [parseInt] on a text whose first character after the white space is
    a minus sign: NaN, or a number with the minus sign. *)
Lemma parseInt_minus_sign (ws rest : string) :
  allWhiteSpace ws = true ->
  parseInt (ws ++ String "-" rest) = NaN
  \/ signedAs true (parseInt (ws ++ String "-" rest)).
Proof.
  intros Hws; rewrite (parseInt_white_space ws _ Hws); unfold parseInt.
  cbn [trimStart]; change (isStrWhiteSpaceChar "-") with false.
  cbn [stripSign]; rewrite Ascii.eqb_refl.
  destruct (hexPrefix rest) as [hex | ].
  - pose proof (spanDigits_nonneg 16 hex) as Hds.
    destruct (spanDigits 16 hex) as [[ | d ds] r]; [left; reflexivity | ].
    right; apply ofZ_signedAs, mathValue_nonneg; [lia | exact Hds].
  - pose proof (spanDigits_nonneg 10 rest) as Hds.
    destruct (spanDigits 10 rest) as [[ | d ds] r]; [left; reflexivity | ].
    right; apply ofZ_signedAs, mathValue_nonneg; [lia | exact Hds].
Qed.

(** An expiration year that begins, after optional white space, with a
    minus sign never leaves a result, in any calendar year from 0 on,
    whatever follows the sign and whatever the other fields hold. *)
Theorem negative_year_absent (year : Z) (st : Component)
  (ws rest : string) :
  expirationYear (bondData st) = ws ++ String "-" rest ->
  allWhiteSpace ws = true -> 0 <= year ->
  result (calculateCompoundRate Math_pow year st) = None.
Proof.
  intros Hexp Hws Hyear; rewrite calculate_result; cbv zeta.
  unfold yearsRemainingOf, expYearOf; rewrite Hexp.
  destruct (parseInt_minus_sign ws rest Hws) as [-> | Hneg].
  - simpl; now rewrite !orb_true_r.
  - pose proof (ofZ_signedAs false year Hyear) as Hpos; cbn [cond_Zopp] in Hpos.
    rewrite (sub_negative_nonnegative _ _ Hneg Hpos).
    destruct (_ || _ || _ || _)%bool; reflexivity.
Qed.

Lemma gtb_sub_not_NaN (x y : number) :
  gtb (sub x y) zero = true -> isNaN x = false.
Proof. destruct x; try reflexivity; destruct y; discriminate. Qed.

(** When the nominal value parses to an infinity, the rate to a zero, the
    current value parses and [yearsRemaining > 0], a result is left; its
    total interest and total return are NaN, and both are printed as the
    text NaN. *)
Theorem infinite_nominal_zero_rate_NaN
  (Number_toString : number -> string) (year : Z) (st : Component) :
  isNaN (nominalOf (bondData st)) = false ->
  isFinite (nominalOf (bondData st)) = false ->
  isZero (ratePercentOf (bondData st)) = true ->
  isNaN (currentOf (bondData st)) = false ->
  gtb (yearsRemainingOf year (bondData st)) zero = true ->
  exists r,
    result (calculateCompoundRate Math_pow year st) = Some r
    /\ isNaN (totalInterestPayments r) = true
    /\ isNaN (totalReturn r) = true
    /\ totalInterestText Number_toString r = "NaN"
    /\ totalReturnText Number_toString r = "NaN".
Proof.
  intros Hn Hinf Hzero Hc Hy.
  assert (Hp : allParsed (bondData st)).
  { repeat split; try assumption.
    - exact (gtb_sub_not_NaN _ _ Hy).
    - destruct (ratePercentOf (bondData st)); try discriminate; reflexivity. }
  rewrite (calculate_present Math_pow year st Hp Hy); cbv zeta.
  eexists; split; [reflexivity | ].
  unfold totalInterestText, totalReturnText, annualInterestOf; simpl.
  destruct (nominalOf (bondData st)) as [s | s | | s m e];
    try discriminate.
  destruct (ratePercentOf (bondData st)) as [s' | s' | | s' m' e'];
    try discriminate.
  repeat split; reflexivity.
Qed.

(** With an infinite number of years the exponent is a zero, and the
    rate is 1 whatever the quotient. *)
Lemma infinite_years_rate_is_one (year : Z) (st : Component)
  (r : CalculationResult) :
  exponentiateFixedCases Math_pow -> calendarYear year ->
  result (calculateCompoundRate Math_pow year st) = Some r ->
  isFinite (yearsRemaining r) = false ->
  compoundRate r = one.
Proof.
  intros [Hzero _] Hyear Hr Hinf.
  destruct (calculate_some Math_pow year st r Hr)
    as ((_ & _ & He & _) & Hle & Hy & _ & _ & ->).
  apply Hzero; rewrite <- Hy in Hle.
  assert (Hn : isNaN (yearsRemaining r) = false).
  { rewrite Hy; unfold yearsRemainingOf.
    now rewrite sub_finite_NaN by (apply calendarYear_finite, Hyear). }
  destruct (yearsRemaining r) as [s | [ | ] | | s m e]; try discriminate.
  reflexivity.
Qed.

End SignsAndPrefixes.

(** ** Amounts as printed *)

Section PrintedAmounts.

Variable Number_toString : number -> string.

(** What [toFixed] prints of a finite number below 10^21 in absolute
    value, for the digits the render function asks for. *)
Lemma toFixed_prints (f : nat) (x : number) :
  (0 < f <= 100)%nat -> belowTenPow21 x = true ->
  printsFixed f x (toFixed Number_toString f x).
Proof.
  intros [Hf _] Hbelow; unfold printsFixed.
  destruct x as [s | s | | s m e]; try discriminate; simpl in Hbelow.
  - destruct (fixedText_shape f 0 Hf ltac:(lia))
      as (a & b & Htext & Hne & Ha & Hb & Hlen & Hval).
    exists a, b; cbn [toFixed printsMinus nearestScaled append].
    rewrite Htext; repeat split; try assumption.
    pose proof (parseFloat_fixed false a b Hne Ha Hb) as Hp.
    cbv iota in Hp; cbn [append] in Hp; now rewrite Hp, Hlen.
  - apply negb_true_iff in Hbelow.
    destruct (fixedText_shape f (scaledHalfUp f m e) Hf
                (scaledHalfUp_nonneg f m e))
      as (a & b & Htext & Hne & Ha & Hb & Hlen & Hval).
    exists a, b; cbn [toFixed printsMinus nearestScaled].
    rewrite Hbelow, Htext; repeat split; try assumption.
    + rewrite Hval; apply scaledHalfUp_nearest.
    + rewrite Hval; apply scaledHalfUp_nearest.
    + now rewrite (parseFloat_fixed s a b Hne Ha Hb), Hlen.
Qed.

(** Each amount of the result panel and of the formula breakdown that is
    finite and below 10^21 in absolute value is printed with exactly two
    digits after the point, and the compound rate with exactly four: an
    optional minus sign (for the finite numbers below zero, also when
    the digits are all zeros; for no zero), at least one digit, a point
    and the digits.  The digits are the integer nearest to the absolute
    value times 100 (times 10000 for the rate), the larger one of two,
    and [parseFloat] reads the text back as that decimal, negative when
    the minus sign is printed. *)
Theorem amounts_printed_fixed_point (b : BondData) (r : CalculationResult) :
  (belowTenPow21 (displayedYield r) = true ->
   printsFixed 2 (displayedYield r) (yieldText Number_toString r))
  /\ (belowTenPow21 (totalInterestPayments r) = true ->
      printsFixed 2 (totalInterestPayments r)
        (totalInterestText Number_toString r))
  /\ (belowTenPow21 (totalReturn r) = true ->
      printsFixed 2 (totalReturn r) (totalReturnText Number_toString r))
  /\ (belowTenPow21 (displayedProfit b r) = true ->
      printsFixed 2 (displayedProfit b r) (profitText Number_toString b r))
  /\ (belowTenPow21 (displayedAnnualInterest r) = true ->
      printsFixed 2 (displayedAnnualInterest r)
        (annualInterestText Number_toString r))
  /\ (belowTenPow21 (compoundRate r) = true ->
      printsFixed 4 (compoundRate r) (compoundRateText Number_toString r)).
Proof.
  repeat split; intros H; apply toFixed_prints; try exact H; lia.
Qed.

End PrintedAmounts.

(** ** Signs, prefixes and prices on concrete inputs *)


(** A negative current value and one year to go: the rate is the
    quotient itself, a finite negative number. *)
Example negative_price_finite_rate :
  exists r,
    result (calculateCompoundRate powSample 2026
              (holding (bond "1000" "-900" "2027" "2.5"))) = Some r
    /\ compoundRate r = parseFloat "-1.1388888888888888"
    /\ isFinite (compoundRate r) = true.
Proof. eexists; split; [vm_compute; reflexivity | ]; repeat split. Qed.


Lemma year_decimal_prefix_truncated_witness :
  parseInt " 2030.9" = ofZ false (digitsValue "2030")
  /\ result (inputEvent powSample 2026 ExpirationYear " 2030.9"
               (holding (bond "1000.5" "900" EmptyString "2.5")))
     = result (inputEvent powSample 2026 ExpirationYear "2030"
                 (holding (bond "1000.5" "900" EmptyString "2.5")))
  /\ forall r,
      result (inputEvent powSample 2026 ExpirationYear " 2030.9"
                (holding (bond "1000.5" "900" EmptyString "2.5"))) = Some r ->
      yearsRemaining r
      = sub (ofZ false (digitsValue "2030")) (ofZ false 2026)
      /\ totalReturn r
         = add (mul (mul (parseFloat "1000.5")
                         (div (parseFloat "2.5") hundred))
                    (yearsRemaining r))
               (parseFloat "1000.5").
Proof.
  destruct (year_decimal_prefix_truncated powSample 2026
              (holding (bond "1000.5" "900" EmptyString "2.5"))
              " " NoSign "2030" ".9")
    as (Hparse & Hsame & Hrecord).
  - reflexivity.
  - discriminate.
  - reflexivity.
  - reflexivity.
  - reflexivity.
  - split; [exact Hparse | split; [exact Hsame | ]].
    intros r Hr; specialize (Hrecord r Hr); cbv zeta in Hrecord.
    subst r; split; reflexivity.
Defined.

(** The year of the example, with a minus sign and leading white space,
    and a year marked as hexadecimal after a plus sign. *)
Example signed_years :
  parseInt " -2030.9" = parseFloat "-2030"
  /\ parseInt "+0X7ec" = parseFloat "2028".
Proof. split; vm_compute; reflexivity. Qed.

Lemma negative_values_accepted_witness :
  (exists r,
      result (calculateCompoundRate powSample 2026
                (holding (bond "1000" "900" "2031" "-2.5"))) = Some r
      /\ totalInterestPayments r
         = mul (mul (parseFloat "1000") (div (parseFloat "-2.5") hundred))
               (yearsRemainingOf 2026 (bond "1000" "900" "2031" "-2.5")))
  /\ ltb (mul (mul (parseFloat "1000") (div (parseFloat "-2.5") hundred))
              (yearsRemainingOf 2026 (bond "1000" "900" "2031" "-2.5")))
         zero = true.
Proof.
  destruct (negative_values_accepted powSample 2026
              (holding (bond "1000" "900" "2031" "-2.5")))
    as [Hresult Hsign].
  - vm_compute; repeat split; reflexivity.
  - vm_compute; reflexivity.
  - split; [eexists; split; [exact Hresult | reflexivity] | ].
    cbv zeta in Hsign.
    destruct (Hsign eq_refl eq_refl eq_refl) as (_ & _ & Hnegative).
    destruct (Hnegative eq_refl eq_refl) as [_ Hstrict].
    exact (Hstrict eq_refl).
Defined.

Lemma negative_year_absent_witness :
  result (calculateCompoundRate powSample 2026
            (holding (bond "1000" "900" " -2031" "2.5"))) = None.
Proof.
  apply (negative_year_absent powSample 2026
           (holding (bond "1000" "900" " -2031" "2.5")) " " "2031").
  - reflexivity.
  - reflexivity.
  - lia.
Defined.

Lemma infinite_nominal_zero_rate_NaN_witness :
  exists r,
    result (calculateCompoundRate powSample 2026
              (holding (bond "Infinity" "900" "2031" "0"))) = Some r
    /\ isNaN (totalInterestPayments r) = true
    /\ isNaN (totalReturn r) = true
    /\ totalInterestText toStringSample r = "NaN"
    /\ totalReturnText toStringSample r = "NaN".
Proof.
  apply (infinite_nominal_zero_rate_NaN powSample toStringSample 2026
           (holding (bond "Infinity" "900" "2031" "0")));
    vm_compute; reflexivity.
Defined.

(** The total return and the compound rate of a result, as printed. *)
Example printed_total_and_rate :
  printsFixed 2 (parseFloat "-8.345")
    (toFixed toStringSample 2 (parseFloat "-8.345"))
  /\ toFixed toStringSample 2 (parseFloat "-8.345") = "-8.35"
  /\ toFixed toStringSample 2 (parseFloat "-0") = "0.00"
  /\ toFixed toStringSample 2 (parseFloat "-0.001") = "-0.00".
Proof.
  split; [apply toFixed_prints; [lia | reflexivity] | repeat split].
Qed.
